(** * veo-mcp-server: the operation poller of [src/index.ts]

    A shallow embedding of the long-running-operation slice of the server:
    identifier normalization, snapshot classification, artifact extraction,
    error mapping, input validation and the two tool handlers
    [veo_get_operation_status] and [veo_wait_for_video].

    The handlers are effectful (HTTP requests, [Date.now()], [setTimeout]).
    They are embedded in a small state-and-exception monad over a [World]
    that carries the clock and the log of everything the handler did; the
    remote service, the network latency and the timer jitter are supplied
    by an environment [Env]. *)

From Stdlib Require Import ZArith List String Ascii Bool Lia QArith DecimalString.
Import ListNotations.

Open Scope string_scope.
Open Scope Z_scope.

(* ------------------------------------------------------------------ *)
(** ** JavaScript values that cross the tool boundary *)

(** The JSON-like values found in tool arguments and in
    [structuredContent].  A number carries its exact value; every IEEE
    double is a rational, so [Q] covers the numbers a JSON document can
    hold. *)
#[local] Set Warnings "-register-all".

Inductive JValue : Type :=
| JNull
| JBool (b : bool)
| JNum (q : Q)
| JStr (s : string)
| JArr (items : list JValue)
| JObj (fields : list (string * JValue)).

(** A JS object literal, in the order its properties are written. *)
Definition Obj : Type := list (string * JValue).

Definition JInt (z : Z) : JValue := JNum (inject_Z z).

(** Property read [o[k]]; [None] is [undefined] (the property is absent). *)
Fixpoint get (o : Obj) (k : string) : option JValue :=
  match o with
  | [] => None
  | (k', v) :: rest => if String.eqb k k' then Some v else get rest k
  end.

(** [a ?? b]. *)
Definition nullish {A : Type} (a : option A) (b : A) : A :=
  match a with Some x => x | None => b end.

(** [a?.f] on an optional receiver, for an optional property [f]. *)
Definition opt_chain {A B : Type} (a : option A) (f : A -> option B) : option B :=
  match a with Some x => f x | None => None end.

(** Template-literal rendering of an integer-valued number. *)
Definition show_int (z : Z) : string := NilZero.string_of_int (Z.to_int z).

Definition show_nat (n : nat) : string := show_int (Z.of_nat n).

(** The text of a [content] item: either a literal string or the result
    of [JSON.stringify(v, null, 2)], kept as the value it serialises. *)
Inductive Text : Type :=
| Plain (s : string)
| Stringify (v : JValue).

(* ------------------------------------------------------------------ *)
(** ** Data model: [interface OperationResponse] *)

Record ApiError : Type := mkApiError {
  code : Z;
  message : string
}.

(** One element of [generatedSamples]: [{ video: { uri } }]. *)
Record Sample : Type := mkSample {
  video_uri : string
}.

Record GenerateVideoResponse : Type := mkGVR {
  generatedSamples : option (list Sample)
}.

Record Response : Type := mkResponse {
  generateVideoResponse : option GenerateVideoResponse
}.

Record OperationResponse : Type := mkOperation {
  name : string;
  done : option bool;
  error : option ApiError;
  response : option Response
}.

Inductive ResponseFormat : Type := MARKDOWN | JSON.

(** Truthiness of [operation.done] ([undefined] and [false] are falsy). *)
Definition done_truthy (operation : OperationResponse) : bool :=
  match done operation with Some true => true | _ => false end.

(** Truthiness of [operation.error] (an object is truthy). *)
Definition error_truthy (operation : OperationResponse) : bool :=
  match error operation with Some _ => true | None => false end.

(** The error object as it appears in an output: the two properties the
    interface declares for it. *)
Definition error_json (e : ApiError) : JValue :=
  JObj [("code", JInt (code e)); ("message", JStr (message e))].

(** [operation.error ?? null]. *)
Definition error_or_null (operation : OperationResponse) : JValue :=
  nullish (option_map error_json (error operation)) JNull.

(* ------------------------------------------------------------------ *)
(** ** Identifier normalization *)

(** [s.includes(sub)]: [sub] occurs somewhere in [s]. *)
Fixpoint includes (s sub : string) : bool :=
  if String.prefix sub s then true
  else match s with
       | EmptyString => false
       | String _ rest => includes rest sub
       end.

(** The [operationPath] computed by the [veo_get_operation_status]
    handler. *)
Definition status_operationPath (operation_name : string) : string :=
  if includes operation_name "/"
  then operation_name
  else "operations/" ++ operation_name.

(** The [operationPath] computed by the [veo_wait_for_video] handler. *)
Definition wait_operationPath (operation_name : string) : string :=
  if includes operation_name "/"
  then operation_name
  else "operations/" ++ operation_name.

(* ------------------------------------------------------------------ *)
(** ** Classification and artifact extraction *)

(** The [status] field written by the [veo_get_operation_status] handler:
    [operation.error ? "failed" : operation.done ? "completed" : "in_progress"]. *)
Definition status_of (operation : OperationResponse) : string :=
  if error_truthy operation then "failed"
  else if done_truthy operation then "completed"
  else "in_progress".

(** [operation.response?.generateVideoResponse?.generatedSamples]. *)
Definition samples_of (operation : OperationResponse) : option (list Sample) :=
  opt_chain (opt_chain (response operation) generateVideoResponse) generatedSamples.

(** [...generatedSamples?.map(s => s.video.uri)], still possibly
    [undefined]. *)
Definition mapped_uris (operation : OperationResponse) : option (list string) :=
  option_map (map video_uri) (samples_of operation).

Definition uris_json (uris : list string) : JValue := JArr (map JStr uris).

(** The [video_urls] field of both handlers:
    [operation.response?.generateVideoResponse?.generatedSamples?.map(...) ?? []]. *)
Definition video_urls_of (operation : OperationResponse) : JValue :=
  nullish (option_map uris_json (mapped_uris operation)) (JArr []).

(** [!!operation.response?.generateVideoResponse?.generatedSamples?.length]. *)
Definition hasVideo (operation : OperationResponse) : bool :=
  match samples_of operation with
  | Some (_ :: _) => true
  | _ => false
  end.

(** The object serialised by the JSON branch of [formatOperationStatus]. *)
Definition formatOperationStatus_json (operation : OperationResponse) : Obj :=
  let status := if done_truthy operation then "completed" else "in_progress" in
  let hasError := error_truthy operation in
  [ ("operation_name", JStr (name operation));
    ("status", JStr (if hasError then "failed" else status));
    ("done", JBool (nullish (done operation) false));
    ("error", error_or_null operation);
    ("video_urls",
      if hasVideo operation
      then uris_json (map video_uri (nullish (samples_of operation) []))
      else JArr []) ].

(** The numbered list under "## Generated Videos". *)
Fixpoint video_lines (idx : nat) (samples : list Sample) : list string :=
  match samples with
  | [] => []
  | sample :: rest =>
      (show_nat (idx + 1) ++ ". " ++ video_uri sample) :: video_lines (S idx) rest
  end.

(** The status label of the markdown branch. *)
Definition status_label (operation : OperationResponse) : string :=
  if error_truthy operation then "❌ Failed"
  else if done_truthy operation then "✅ Completed"
  else "⏳ In Progress".

Definition formatOperationStatus_lines (operation : OperationResponse) : list string :=
  [ "# Video Generation Status";
    "";
    "**Operation:** `" ++ name operation ++ "`";
    "**Status:** " ++ status_label operation ]
  ++ match error operation with
     | Some e =>
         [ ""; "## Error";
           "- **Code:** " ++ show_int (code e);
           "- **Message:** " ++ message e ]
     | None => []
     end
  ++ (if hasVideo operation
      then ["";  "## Generated Videos"]
           ++ video_lines 0 (nullish (samples_of operation) [])
      else [])
  ++ (if negb (done_truthy operation) && negb (error_truthy operation)
      then [ "";
             "*Video generation typically takes 11 seconds to 6 minutes. Use `veo_get_operation_status` to check progress.*" ]
      else []).

Definition newline : string := String (ascii_of_nat 10) EmptyString.

Definition formatOperationStatus (operation : OperationResponse)
    (format : ResponseFormat) : Text :=
  match format with
  | JSON => Stringify (JObj (formatOperationStatus_json operation))
  | MARKDOWN => Plain (String.concat newline (formatOperationStatus_lines operation))
  end.

(* ------------------------------------------------------------------ *)
(** ** Thrown values and [handleApiError] *)

(** What [handleApiError] reads of [axiosError.response]: the HTTP status
    and [response.data?.error?.message]. *)
Record AxiosResponse : Type := mkAxiosResponse {
  status : Z;
  data_error_message : option string
}.

(** A value caught by a handler's [catch (error)]. *)
Inductive Thrown : Type :=
| AxiosError (msg : string) (err_code : option string) (resp : option AxiosResponse)
| JsError (msg : string)
| NonError (as_string : string).

(** [a || b] on an optional string: [undefined] and the empty string are
    falsy. *)
Definition or_else (a : option string) (b : string) : string :=
  match a with
  | Some EmptyString | None => b
  | Some s => s
  end.

Definition unexpected (m : string) : string :=
  "Error: Unexpected error occurred: " ++ m.

Definition handleApiError (e : Thrown) : string :=
  match e with
  | AxiosError amsg _ (Some r) =>
      let m := or_else (data_error_message r) amsg in
      if status r =? 400 then
        "Error: Invalid request. " ++ m ++ ". Check your parameters and try again."
      else if status r =? 401 then
        "Error: Invalid API key. Please check your GEMINI_API_KEY environment variable."
      else if status r =? 403 then
        "Error: Access denied. " ++ m ++ ". Ensure your API key has Veo access enabled."
      else if status r =? 404 then
        "Error: Resource not found. " ++ m ++ ". Check the operation name or model ID."
      else if status r =? 429 then
        "Error: Rate limit exceeded. Please wait before making more requests."
      else if status r =? 500 then
        "Error: Server error. " ++ m ++ ". Please try again later."
      else
        "Error: API request failed with status " ++ show_int (status r) ++ ". " ++ m
  | AxiosError amsg (Some c) None =>
      if String.eqb c "ECONNABORTED" then
        "Error: Request timed out. Video generation can take several minutes. Use veo_get_operation_status to check progress."
      else if String.eqb c "ENOTFOUND" then
        "Error: Network error. Please check your internet connection."
      else unexpected amsg
  | AxiosError amsg None None => unexpected amsg
  | JsError m => unexpected m
  | NonError s => unexpected s
  end.

(* ------------------------------------------------------------------ *)
(** ** The world a handler runs in

    Time is the reading of [Date.now()], in milliseconds.  It advances
    only while the handler awaits a request or a timer: by the latency the
    environment gives the request, and by the timer's delay plus whatever
    lateness the environment gives the timer.  A timer never fires early
    and the clock never goes back. *)

Inductive Method : Type := GET | POST.

(** What the handler did, in the order it did it, with the clock readings
    (milliseconds) at which each action began and ended. *)
Inductive Event : Type :=
| Request (method : Method) (url : string) (t_begin t_end : Z)
| Sleep (ms : Z) (t_begin t_end : Z).

Record World : Type := mkWorld {
  now : Z;              (* the clock read by Date.now() *)
  sent : nat;           (* HTTP requests issued so far *)
  timers : nat;         (* timers awaited so far *)
  log : list Event
}.

(** The outcome of one HTTP exchange: [response.data], or the value axios
    throws (non-2xx status, network failure, the 60 s client timeout). *)
Inductive HttpOutcome : Type :=
| Data (operation : OperationResponse)
| Fails (e : Thrown).

(** Everything outside the process.  Requests and timers are numbered
    from 1 in the order the process issues them. *)
Record Env : Type := mkEnv {
  GEMINI_API_KEY : option string;       (* process.env.GEMINI_API_KEY *)
  http : nat -> string -> HttpOutcome;  (* answer to the j-th request *)
  latency : nat -> N;                   (* ms until the j-th request settles *)
  timer_extra : nat -> N                (* ms the j-th timer fires late *)
}.

Definition fresh (t0 : Z) : World :=
  {| now := t0; sent := 0; timers := 0; log := [] |}.

(** *** A state-and-exception monad *)

Inductive Outcome (A : Type) : Type :=
| Ret (a : A)
| Raise (e : Thrown)
| OutOfFuel.

Arguments Ret {A} a.
Arguments Raise {A} e.
Arguments OutOfFuel {A}.

Definition M (A : Type) : Type := World -> Outcome A * World.

Definition ret {A : Type} (a : A) : M A := fun w => (Ret a, w).

Definition throw {A : Type} (e : Thrown) : M A := fun w => (Raise e, w).

Definition bind {A B : Type} (m : M A) (k : A -> M B) : M B :=
  fun w =>
    match m w with
    | (Ret a, w') => k a w'
    | (Raise e, w') => (Raise e, w')
    | (OutOfFuel, w') => (OutOfFuel, w')
    end.

(** [try { m } catch (error) { h error }]. *)
Definition try_catch {A : Type} (m : M A) (h : Thrown -> M A) : M A :=
  fun w =>
    match m w with
    | (Raise e, w') => h e w'
    | r => r
    end.

Declare Scope monad_scope.
Delimit Scope monad_scope with monad.
Notation "x <- m ;; k" := (bind m (fun x => k))
  (at level 100, m at next level, right associativity) : monad_scope.
Notation "m ;; k" := (bind m (fun _ => k))
  (at level 100, right associativity) : monad_scope.
Open Scope monad_scope.

(** [Date.now()]. *)
Definition date_now : M Z := fun w => (Ret (now w), w).

(** The delay a timer really uses: Node replaces a delay below 1 or above
    2^31-1 by 1. *)
Definition timer_delay (ms : Z) : Z :=
  if (ms <? 1) || (2147483647 <? ms) then 1 else ms.

Definition API_BASE_URL : string :=
  "https://generativelanguage.googleapis.com/v1beta".

Section Server.

Variable env : Env.

(** [await new Promise(resolve => setTimeout(resolve, ms))]: the task
    resumes no earlier than the delay after it suspended. *)
Definition sleep (ms : Z) : M unit :=
  fun w =>
    let j := S (timers w) in
    let t1 := now w + timer_delay ms + Z.of_N (timer_extra env j) in
    (Ret tt,
     {| now := t1; sent := sent w; timers := j;
        log := log w ++ [Sleep ms (now w) t1] |}).

Definition getApiKey : M string :=
  match GEMINI_API_KEY env with
  | Some EmptyString | None =>
      throw (JsError "GEMINI_API_KEY environment variable is required")
  | Some apiKey => ret apiKey
  end.

(** [await axios({ method, url, ... })] followed by [response.data]. *)
Definition axios (method : Method) (url : string) : M OperationResponse :=
  fun w =>
    let j := S (sent w) in
    let t1 := now w + Z.of_N (latency env j) in
    let w' := {| now := t1; sent := j; timers := timers w;
                 log := log w ++ [Request method url (now w) t1] |} in
    match http env j url with
    | Data operation => (Ret operation, w')
    | Fails e => (Raise e, w')
    end.

Definition makeVeoRequest (endpoint : string) (method : Method)
    : M OperationResponse :=
  _ <- getApiKey ;;
  let url := API_BASE_URL ++ "/" ++ endpoint in
  try_catch (axios method url) (fun e => throw e).

End Server.

(* ------------------------------------------------------------------ *)
(** ** Input schemas *)

(** [z.infer<typeof GetOperationStatusInputSchema>]. *)
Record GetOperationStatusInput : Type := mkGetOperationStatusInput {
  gs_operation_name : string;
  gs_response_format : ResponseFormat
}.

(** [z.infer<typeof WaitForVideoInputSchema>]. *)
Record WaitForVideoInput : Type := mkWaitForVideoInput {
  operation_name : string;
  poll_interval_seconds : Z;
  timeout_seconds : Z;
  response_format : ResponseFormat
}.

(** The issues a schema reports, each with the key it concerns. *)
Inductive Issue : Type :=
| invalid_type (path : string)
| not_integer (path : string)
| too_small (path : string)
| too_big (path : string)
| invalid_enum_value (path : string)
| unrecognized_keys (keys : list string).

Definition Parsed (A : Type) : Type := (list Issue + A)%type.

Definition issues_of {A : Type} (r : Parsed A) : list Issue :=
  match r with inl issues => issues | inr _ => [] end.

(** [Number.isInteger] on a finite number. *)
Definition is_integer (q : Q) : bool := (Qnum q mod Zpos (Qden q) =? 0).

(** The integer a number denotes when [is_integer] holds. *)
Definition to_integer (q : Q) : Z := Qnum q / Zpos (Qden q).

(** [z.string().min(1, ...)]. *)
Definition z_string_min1 (path : string) (v : option JValue) : Parsed string :=
  match v with
  | Some (JStr s) =>
      if (String.length s <? 1)%nat then inl [too_small path] else inr s
  | _ => inl [invalid_type path]
  end.

(** [z.number().int().min(lo).max(hi).default(dflt)]: an absent key takes
    the default; a number goes through the three checks in order and every
    failed check is reported. *)
Definition z_int_range (lo hi dflt : Z) (path : string) (v : option JValue)
    : Parsed Z :=
  match v with
  | None => inr dflt
  | Some (JNum q) =>
      let issues : list Issue :=
        ((if is_integer q then [] else [not_integer path])
         ++ (if Qle_bool (inject_Z lo) q then [] else [too_small path])
         ++ (if Qle_bool q (inject_Z hi) then [] else [too_big path]))%list in
      match issues with
      | [] => inr (to_integer q)
      | _ => inl issues
      end
  | Some _ => inl [invalid_type path]
  end.

(** [z.nativeEnum(ResponseFormat).default(ResponseFormat.MARKDOWN)]: a
    string or a number that is no member of the enum is an invalid enum
    value, a value of any other type an invalid type. *)
Definition z_response_format (path : string) (v : option JValue)
    : Parsed ResponseFormat :=
  match v with
  | None => inr MARKDOWN
  | Some (JStr s) =>
      if String.eqb s "markdown" then inr MARKDOWN
      else if String.eqb s "json" then inr JSON
      else inl [invalid_enum_value path]
  | Some (JNum _) => inl [invalid_enum_value path]
  | Some _ => inl [invalid_type path]
  end.

Definition known_key (shape : list string) (k : string) : bool :=
  existsb (String.eqb k) shape.

(** [.strict()]: keys outside the shape are an issue. *)
Definition strict (shape : list string) (args : Obj) : list Issue :=
  match filter (fun k => negb (known_key shape k)) (map fst args) with
  | [] => []
  | extra => [unrecognized_keys extra]
  end.

Definition GetOperationStatusInputSchema (args : Obj)
    : Parsed GetOperationStatusInput :=
  let n := z_string_min1 "operation_name" (get args "operation_name") in
  let f := z_response_format "response_format" (get args "response_format") in
  let s := strict ["operation_name"; "response_format"] args in
  match n, f, s with
  | inr n', inr f', [] => inr (mkGetOperationStatusInput n' f')
  | _, _, _ => inl (issues_of n ++ issues_of f ++ s)%list
  end.

Definition WaitForVideoInputSchema (args : Obj) : Parsed WaitForVideoInput :=
  let n := z_string_min1 "operation_name" (get args "operation_name") in
  let p := z_int_range 5 60 10 "poll_interval_seconds"
             (get args "poll_interval_seconds") in
  let t := z_int_range 30 600 300 "timeout_seconds"
             (get args "timeout_seconds") in
  let f := z_response_format "response_format" (get args "response_format") in
  let s := strict ["operation_name"; "poll_interval_seconds";
                   "timeout_seconds"; "response_format"] args in
  match n, p, t, f, s with
  | inr n', inr p', inr t', inr f', [] => inr (mkWaitForVideoInput n' p' t' f')
  | _, _, _, _, _ =>
      inl (issues_of n ++ issues_of p ++ issues_of t ++ issues_of f ++ s)%list
  end.

(* ------------------------------------------------------------------ *)
(** ** Tool handlers *)

(** The value a tool handler returns. *)
Record ToolResult : Type := mkToolResult {
  isError : bool;
  content : Text;
  structuredContent : option Obj
}.

Definition error_result (e : Thrown) : ToolResult :=
  {| isError := true;
     content := Plain (handleApiError e);
     structuredContent := None |}.

(** [Math.round(elapsed / 1000)] for an integer number of milliseconds:
    the nearest integer, halves rounded up. *)
Definition round_seconds (elapsed : Z) : Z := (elapsed + 500) / 1000.

(** How the [while (true)] of the wait handler is left: by [break], or by
    the [return] inside the loop. *)
Inductive LoopExit : Type :=
| Break (operation : OperationResponse) (pollCount : nat)
| Return (result : ToolResult).

Definition timeout_output (operation : OperationResponse)
    (params : WaitForVideoInput) (elapsed : Z) (pollCount : nat) : Obj :=
  [ ("operation_name", JStr (name operation));
    ("status", JStr "timeout");
    ("done", JBool false);
    ("elapsed_seconds", JInt (round_seconds elapsed));
    ("poll_count", JInt (Z.of_nat pollCount));
    ("message", JStr ("Timed out after " ++ show_int (timeout_seconds params)
       ++ " seconds. The video may still be generating. Use veo_get_operation_status to check later.")) ].

Definition timeout_result (operation : OperationResponse)
    (params : WaitForVideoInput) (elapsed : Z) (pollCount : nat) : ToolResult :=
  let output := timeout_output operation params elapsed pollCount in
  match response_format params with
  | JSON =>
      {| isError := false;
         content := Stringify (JObj output);
         structuredContent := Some output |}
  | MARKDOWN =>
      {| isError := false;
         content := Plain (String.concat newline
           [ "# Video Generation Timeout";
             "";
             "**Operation:** `" ++ name operation ++ "`";
             "**Status:** ⏱️ Timed out after "
               ++ show_int (timeout_seconds params) ++ " seconds";
             "**Polls:** " ++ show_nat pollCount;
             "";
             "*The video may still be generating. Use `veo_get_operation_status` to check later.*" ]);
         structuredContent := Some output |}
  end.

(** The [output] built after the loop was left by [break]. *)
Definition final_output (operation : OperationResponse) (elapsed : Z)
    (pollCount : nat) : Obj :=
  [ ("operation_name", JStr (name operation));
    ("status", JStr (if error_truthy operation then "failed" else "completed"));
    ("done", JBool true);
    ("elapsed_seconds", JInt (round_seconds elapsed));
    ("poll_count", JInt (Z.of_nat pollCount));
    ("error", error_or_null operation);
    ("video_urls", video_urls_of operation) ].

(** The [output] of the [veo_get_operation_status] handler. *)
Definition status_output (operation : OperationResponse) : Obj :=
  [ ("operation_name", JStr (name operation));
    ("status", JStr (status_of operation));
    ("done", JBool (nullish (done operation) false));
    ("error", error_or_null operation);
    ("video_urls", video_urls_of operation) ].

Section Handlers.

Variable env : Env.

Definition veo_get_operation_status (params : GetOperationStatusInput)
    : M ToolResult :=
  try_catch
    (let operationPath := status_operationPath (gs_operation_name params) in
     operation <- makeVeoRequest env operationPath GET ;;
     let text := formatOperationStatus operation (gs_response_format params) in
     let output := status_output operation in
     ret {| isError := false; content := text; structuredContent := Some output |})
    (fun e => ret (error_result e)).

(** The [while (true)] loop; [pollCount] is the counter on entry to the
    iteration and [fuel] bounds the number of iterations unfolded. *)
Fixpoint poll_loop (params : WaitForVideoInput) (operationPath : string)
    (startTime timeoutMs pollIntervalMs : Z) (fuel pollCount : nat)
    : M LoopExit :=
  match fuel with
  | O => fun w => (OutOfFuel, w)
  | S fuel' =>
      let pollCount := S pollCount in
      operation <- makeVeoRequest env operationPath GET ;;
      if done_truthy operation || error_truthy operation
      then ret (Break operation pollCount)
      else
        t <- date_now ;;
        let elapsed := t - startTime in
        if timeoutMs <=? elapsed
        then ret (Return (timeout_result operation params elapsed pollCount))
        else
          sleep env pollIntervalMs ;;
          poll_loop params operationPath startTime timeoutMs pollIntervalMs
            fuel' pollCount
  end.

Definition veo_wait_for_video (fuel : nat) (params : WaitForVideoInput)
    : M ToolResult :=
  try_catch
    (let operationPath := wait_operationPath (operation_name params) in
     startTime <- date_now ;;
     let timeoutMs := timeout_seconds params * 1000 in
     let pollIntervalMs := poll_interval_seconds params * 1000 in
     exit <- poll_loop params operationPath startTime timeoutMs pollIntervalMs
               fuel 0 ;;
     match exit with
     | Return result => ret result
     | Break operation pollCount =>
         let text := formatOperationStatus operation (response_format params) in
         t <- date_now ;;
         let elapsed := t - startTime in
         let output := final_output operation elapsed pollCount in
         ret {| isError := false; content := text;
                structuredContent := Some output |}
     end)
    (fun e => ret (error_result e)).

(** What a [tools/call] yields: the server validates the arguments
    against the tool's [inputSchema] and runs the handler only on the
    parsed value. *)
Inductive CallResult : Type :=
| InvalidParams (issues : list Issue)
| Handled (result : ToolResult).

Definition call_veo_get_operation_status (args : Obj) : M CallResult :=
  match GetOperationStatusInputSchema args with
  | inl issues => ret (InvalidParams issues)
  | inr params => r <- veo_get_operation_status params ;; ret (Handled r)
  end.

Definition call_veo_wait_for_video (fuel : nat) (args : Obj) : M CallResult :=
  match WaitForVideoInputSchema args with
  | inl issues => ret (InvalidParams issues)
  | inr params => r <- veo_wait_for_video fuel params ;; ret (Handled r)
  end.

End Handlers.

(* ------------------------------------------------------------------ *)
(** ** The timeline of a wait call *)

(** [⌈a/b⌉] for positive [b]. *)
Definition ceil_div (a b : Z) : Z := (a + b - 1) / b.

(** The credential is present, so [getApiKey] returns. *)
Definition configured (env : Env) : bool :=
  match GEMINI_API_KEY env with
  | Some EmptyString | None => false
  | Some _ => true
  end.

(** The URL requested for an endpoint. *)
Definition url_of (endpoint : string) : string :=
  API_BASE_URL ++ "/" ++ endpoint.

(** A snapshot on which the loop breaks. *)
Definition terminal (operation : OperationResponse) : bool :=
  done_truthy operation || error_truthy operation.

(** Milliseconds spent inside the first [n] requests. *)
Fixpoint latency_sum (env : Env) (n : nat) : Z :=
  match n with
  | O => 0
  | S n' => latency_sum env n' + Z.of_N (latency env n)
  end.

(** Milliseconds by which the first [n] timers fired late. *)
Fixpoint extra_sum (env : Env) (n : nat) : Z :=
  match n with
  | O => 0
  | S n' => extra_sum env n' + Z.of_N (timer_extra env n)
  end.

(** Time lost to the network and to late timers by the moment the [n]-th
    request settles: [n] requests and the [n-1] sleeps between them. *)
Definition total_lag (env : Env) (n : nat) : Z :=
  latency_sum env n + extra_sum env (pred n).

Section Timeline.

Variable env : Env.
Variable endpoint : string.
Variables pollIntervalMs timeoutMs t0 : Z.

(** The world on entry to the iteration whose counter is still [c]:
    [c] requests have settled, each followed by one sleep. *)
Fixpoint world_after (c : nat) : World :=
  match c with
  | O => fresh t0
  | S c' =>
      snd (sleep env pollIntervalMs
             (snd (axios env GET (url_of endpoint) (world_after c'))))
  end.

(** The world when request [c+1] has settled. *)
Definition world_settled (c : nat) : World :=
  snd (axios env GET (url_of endpoint) (world_after c)).

(** The [elapsed] computed after request [c+1]. *)
Definition elapsed_at (c : nat) : Z := now (world_settled c) - t0.

(** Iteration [c+1] neither breaks, nor returns, nor throws. *)
Definition quiet (c : nat) : bool :=
  match http env (S c) (url_of endpoint) with
  | Data operation => negb (terminal operation) && (elapsed_at c <? timeoutMs)
  | Fails _ => false
  end.

(** How iteration [c+1] leaves the loop when it is not quiet. *)
Definition exit_at (params : WaitForVideoInput) (c : nat)
    : Outcome LoopExit * World :=
  match http env (S c) (url_of endpoint) with
  | Fails e => (Raise e, world_settled c)
  | Data operation =>
      if terminal operation
      then (Ret (Break operation (S c)), world_settled c)
      else (Ret (Return (timeout_result operation params (elapsed_at c) (S c))),
            world_settled c)
  end.

End Timeline.

(** *** Reading the log *)

Definition ev_begin (e : Event) : Z :=
  match e with Request _ _ b _ => b | Sleep _ b _ => b end.

Definition ev_end (e : Event) : Z :=
  match e with Request _ _ _ t => t | Sleep _ _ t => t end.

Definition is_request (e : Event) : Prop :=
  match e with Request _ _ _ _ => True | Sleep _ _ _ => False end.

(** [e1] is over before [e2] starts. *)
Definition precedes (e1 e2 : Event) : Prop :=
  ev_begin e1 <= ev_end e1 /\ ev_end e1 <= ev_begin e2.

(** Two requests begin at least [interval] apart. *)
Definition spaced (interval : Z) (e1 e2 : Event) : Prop :=
  is_request e1 -> is_request e2 -> ev_begin e1 + interval <= ev_begin e2.

(** A sleep is for the poll interval and starts before the deadline. *)
Definition sleeps_before_deadline (interval timeout t0 : Z) (e : Event) : Prop :=
  match e with
  | Sleep ms b t => ms = interval /\ b - t0 < timeout /\ b + interval <= t
  | Request _ _ _ _ => True
  end.

(** Every request in the log went to [url]. *)
Definition requests_to (url : string) (e : Event) : Prop :=
  match e with
  | Request m u _ _ => m = GET /\ u = url
  | Sleep _ _ _ => True
  end.

(* ------------------------------------------------------------------ *)
(** ** Reading results, and test doubles *)

(** The [structuredContent] a run returned, if it returned one. *)
Definition returned_output (run : Outcome ToolResult * World) : option Obj :=
  match fst run with
  | Ret result => structuredContent result
  | _ => None
  end.

(** The field [k] of the [structuredContent] a run returned. *)
Definition returned_field (run : Outcome ToolResult * World) (k : string)
    : option JValue :=
  opt_chain (returned_output run) (fun output => get output k).

(** A stub service: the [j]-th request is answered by [answers j] after
    [lat] milliseconds; timers fire exactly on time. *)
Definition stub_env (answers : nat -> HttpOutcome) (lat : N) : Env :=
  {| GEMINI_API_KEY := Some "test-key";
     http := fun j _ => answers j;
     latency := fun _ => lat;
     timer_extra := fun _ => 0%N |}.

Definition pending : OperationResponse :=
  {| name := "operations/abc123"; done := None; error := None; response := None |}.

(** A snapshot with no done flag and no error that already lists a
    sample. *)
Definition pending_with_sample : OperationResponse :=
  {| name := "operations/abc123"; done := None; error := None;
     response := Some (mkResponse (Some (mkGVR (Some [mkSample "uri1"])))) |}.

Definition finished : OperationResponse :=
  {| name := "operations/abc123"; done := Some true; error := None;
     response := Some (mkResponse (Some (mkGVR (Some [mkSample "uri1"])))) |}.

(** [{ done: true }] with no [response]. *)
Definition done_without_response : OperationResponse :=
  {| name := "operations/abc123"; done := Some true; error := None; response := None |}.

(** [{ error: { code: 7, message: "denied" } }] with no [done]. *)
Definition denied : OperationResponse :=
  {| name := "operations/abc123"; done := None;
     error := Some (mkApiError 7 "denied"); response := None |}.

(** [{ done: true, error: ... }]. *)
Definition done_with_error : OperationResponse :=
  {| name := "operations/abc123"; done := Some true;
     error := Some (mkApiError 13 "internal"); response := None |}.

(** *** Log invariants of the polling loop *)

(** What C9 asks of a log: actions do not overlap, requests are at least
    [interval] apart, and no sleep starts at or after the deadline. *)
Definition paced_log (interval timeout t0 : Z) (l : list Event) : Prop :=
  ForallOrdPairs precedes l /\
  ForallOrdPairs (spaced interval) l /\
  Forall (sleeps_before_deadline interval timeout t0) l.

(** What holds of the log whenever an iteration of the loop begins: every
    action is over, and every request began at least [interval] ago. *)
Definition entry_inv (interval : Z) (w : World) : Prop :=
  Forall (fun e => ev_begin e <= ev_end e /\ ev_end e <= now w /\
                   (is_request e -> ev_begin e + interval <= now w)) (log w).

(** *** Arguments of a wait call *)

(** The value is an integer within [[lo, hi]]. *)
Definition int_in_range (lo hi : Z) (v : JValue) : bool :=
  match v with
  | JNum q => is_integer q && Qle_bool (inject_Z lo) q && Qle_bool q (inject_Z hi)
  | _ => false
  end.

(** An optional numeric argument is absent or within its bounds. *)
Definition absent_or_in_range (lo hi : Z) (v : option JValue) : Prop :=
  v = None \/ exists x, v = Some x /\ int_in_range lo hi x = true.

(** What a numeric argument with a default denotes: the default when the
    key is absent, and otherwise the integer within [[lo, hi]] that the
    supplied number equals. *)
Definition supplied_int (dflt lo hi : Z) (v : option JValue) (n : Z) : Prop :=
  (v = None /\ n = dflt) \/
  (exists q, v = Some (JNum q) /\ q == inject_Z n /\ lo <= n <= hi).

(** What the [response_format] argument denotes. *)
Definition supplied_format (v : option JValue) (f : ResponseFormat) : Prop :=
  (v = None /\ f = MARKDOWN) \/
  (v = Some (JStr "markdown") /\ f = MARKDOWN) \/
  (v = Some (JStr "json") /\ f = JSON).

Definition WaitForVideoKeys : list string :=
  ["operation_name"; "poll_interval_seconds"; "timeout_seconds"; "response_format"].

(** Numbers within bounds, but an empty operation name. *)
Definition empty_name_args : Obj :=
  [ ("operation_name", JStr "");
    ("poll_interval_seconds", JInt 10);
    ("timeout_seconds", JInt 300) ].

(** Numbers within bounds, but a response format the enum lacks. *)
Definition bad_format_args : Obj :=
  [ ("operation_name", JStr "abc123");
    ("poll_interval_seconds", JInt 10);
    ("timeout_seconds", JInt 300);
    ("response_format", JStr "xml") ].

(** Numbers within bounds, but a key the schema does not declare. *)
Definition extra_key_args : Obj :=
  [ ("operation_name", JStr "abc123");
    ("poll_interval_seconds", JInt 10);
    ("timeout_seconds", JInt 300);
    ("retries", JInt 3) ].

Definition good_args : Obj :=
  [ ("operation_name", JStr "abc123");
    ("poll_interval_seconds", JInt 5);
    ("timeout_seconds", JInt 30);
    ("response_format", JStr "json") ].

Definition late_args : Obj :=
  [ ("operation_name", JStr "abc123");
    ("poll_interval_seconds", JInt 61) ].

(* ------------------------------------------------------------------ *)
(** ** The model table and the generation tools *)

(** Strings hold the UTF-8 encoding of the JavaScript string.
    [s.length] counts UTF-16 code units: one for every code point, two for
    a code point outside the basic plane (a four-byte sequence). *)
Definition utf16_units (c : ascii) : nat :=
  let n := nat_of_ascii c in
  if (n <? 128)%nat then 1
  else if (n <? 192)%nat then 0
  else if (n <? 240)%nat then 1
  else 2.

Fixpoint js_length (s : string) : nat :=
  match s with
  | EmptyString => 0
  | String c rest => utf16_units c + js_length rest
  end.

(** One entry of [VEO_MODELS]. *)
Record VeoModel : Type := mkVeoModel {
  model_id : string;
  model_name : string;
  model_status : string;
  model_description : string;
  model_features : list string;
  model_resolutions : list string;
  model_durations : list Z;
  supportsResolution : bool
}.

Definition VEO_MODELS : list VeoModel :=
  [ {| model_id := "veo-3.1-generate-preview";
       model_name := "Veo 3.1";
       model_status := "preview";
       model_description :=
         "Latest Veo model with 720p/1080p, extension, interpolation, and reference images";
       model_features := ["text-to-video"; "image-to-video"; "video-extension";
                          "interpolation"; "reference-images"; "audio"];
       model_resolutions := ["720p"; "1080p"];
       model_durations := [4; 6; 8];
       supportsResolution := true |};
    {| model_id := "veo-3.1-fast-generate-preview";
       model_name := "Veo 3.1 Fast";
       model_status := "preview";
       model_description := "Speed-optimized variant of Veo 3.1 with all features";
       model_features := ["text-to-video"; "image-to-video"; "video-extension";
                          "interpolation"; "reference-images"; "audio"];
       model_resolutions := ["720p"; "1080p"];
       model_durations := [4; 6; 8];
       supportsResolution := true |};
    {| model_id := "veo-3.0-generate-001";
       model_name := "Veo 3";
       model_status := "stable";
       model_description := "Stable Veo model with audio (1080p only with 16:9)";
       model_features := ["text-to-video"; "image-to-video"; "audio"];
       model_resolutions := ["720p"; "1080p"];
       model_durations := [4; 6; 8];
       supportsResolution := true |};
    {| model_id := "veo-3.0-fast-generate-001";
       model_name := "Veo 3 Fast";
       model_status := "stable";
       model_description := "Speed-optimized variant of Veo 3";
       model_features := ["text-to-video"; "image-to-video"; "audio"];
       model_resolutions := ["720p"; "1080p"];
       model_durations := [4; 6; 8];
       supportsResolution := true |};
    {| model_id := "veo-2.0-generate-001";
       model_name := "Veo 2";
       model_status := "stable";
       model_description := "Silent video generation (no audio, no resolution control)";
       model_features := ["text-to-video"; "image-to-video"];
       model_resolutions := ["720p"];
       model_durations := [5; 6; 8];
       supportsResolution := false |} ].

Inductive AspectRatio : Type := LANDSCAPE | PORTRAIT.

Definition AspectRatio_value (a : AspectRatio) : string :=
  match a with LANDSCAPE => "16:9" | PORTRAIT => "9:16" end.

Inductive Resolution : Type := HD | FULL_HD.

Definition Resolution_value (r : Resolution) : string :=
  match r with HD => "720p" | FULL_HD => "1080p" end.

Inductive PersonGeneration : Type := ALLOW_ALL | ALLOW_ADULT | DONT_ALLOW.

Definition PersonGeneration_value (g : PersonGeneration) : string :=
  match g with
  | ALLOW_ALL => "allow_all"
  | ALLOW_ADULT => "allow_adult"
  | DONT_ALLOW => "dont_allow"
  end.

(** *** Schemas of the generation tools *)

(** The issues of these schemas: those of [Issue], and the one a
    [z.union] reports when no member accepts the value. *)
Inductive GenIssue : Type :=
| field_issue (i : Issue)
| invalid_union (path : string).

Definition GenParsed (A : Type) : Type := (list GenIssue + A)%type.

Definition lift_parsed {A : Type} (r : Parsed A) : GenParsed A :=
  match r with
  | inl issues => inl (map field_issue issues)
  | inr a => inr a
  end.

Definition gen_issues_of {A : Type} (r : GenParsed A) : list GenIssue :=
  match r with inl issues => issues | inr _ => [] end.

(** [z.string().min(lo, ...).max(hi, ...)]: both checks run, in that
    order. *)
Definition z_string_range (lo hi : nat) (path : string) (v : option JValue)
    : Parsed string :=
  match v with
  | Some (JStr s) =>
      let issues : list Issue :=
        ((if (js_length s <? lo)%nat then [too_small path] else [])
         ++ (if (hi <? js_length s)%nat then [too_big path] else []))%list in
      match issues with
      | [] => inr s
      | _ => inl issues
      end
  | _ => inl [invalid_type path]
  end.

(** [schema.optional()]: an absent key is accepted as [undefined]. *)
Definition z_optional {A : Type} (schema : string -> option JValue -> Parsed A)
    (path : string) (v : option JValue) : Parsed (option A) :=
  match v with
  | None => inr None
  | Some _ =>
      match schema path v with
      | inl issues => inl issues
      | inr a => inr (Some a)
      end
  end.

(** [schema.default(dflt)]: an absent key takes the default. *)
Definition z_default {A : Type} (schema : string -> option JValue -> Parsed A)
    (dflt : A) (path : string) (v : option JValue) : Parsed A :=
  match v with
  | None => inr dflt
  | Some _ => schema path v
  end.

(** [z.enum(values)]. *)
Definition z_enum (values : list string) (path : string) (v : option JValue)
    : Parsed string :=
  match v with
  | Some (JStr s) =>
      if existsb (String.eqb s) values then inr s
      else inl [invalid_enum_value path]
  | _ => inl [invalid_type path]
  end.

(** [z.nativeEnum(E)] for an enum [E] with the given string members: a
    string or a number that is no member is an invalid enum value, a value
    of any other type an invalid type. *)
Definition z_nativeEnum {E : Type} (members : list E) (value : E -> string)
    (path : string) (v : option JValue) : Parsed E :=
  match v with
  | Some (JStr s) =>
      match find (fun e => String.eqb s (value e)) members with
      | Some e => inr e
      | None => inl [invalid_enum_value path]
      end
  | Some (JNum _) => inl [invalid_enum_value path]
  | _ => inl [invalid_type path]
  end.

Definition ModelIds : list string :=
  [ "veo-3.1-generate-preview";
    "veo-3.1-fast-generate-preview";
    "veo-3.0-generate-001";
    "veo-3.0-fast-generate-001";
    "veo-2.0-generate-001" ].

Definition ModelIdSchema : string -> option JValue -> Parsed string :=
  z_enum ModelIds.

(** [z.union([z.literal(4), z.literal(5), z.literal(6), z.literal(8)]).default(4)]. *)
Definition z_duration (path : string) (v : option JValue) : GenParsed Z :=
  match v with
  | None => inr 4
  | Some (JNum q) =>
      if Qeq_bool q (inject_Z 4) then inr 4
      else if Qeq_bool q (inject_Z 5) then inr 5
      else if Qeq_bool q (inject_Z 6) then inr 6
      else if Qeq_bool q (inject_Z 8) then inr 8
      else inl [invalid_union path]
  | Some _ => inl [invalid_union path]
  end.

(** [z.infer<typeof GenerateVideoInputSchema>]. *)
Record GenerateVideoInput : Type := mkGenerateVideoInput {
  gv_prompt : string;
  gv_model : string;
  gv_negative_prompt : option string;
  gv_aspect_ratio : AspectRatio;
  gv_duration_seconds : Z;
  gv_resolution : option Resolution;
  gv_person_generation : PersonGeneration;
  gv_response_format : ResponseFormat
}.

Definition z_negative_prompt : string -> option JValue -> Parsed (option string) :=
  z_optional (fun path v =>
    match v with
    | Some (JStr s) =>
        if (1000 <? js_length s)%nat then inl [too_big path] else inr s
    | _ => inl [invalid_type path]
    end).

Definition z_aspect_ratio : string -> option JValue -> Parsed AspectRatio :=
  z_default (z_nativeEnum [LANDSCAPE; PORTRAIT] AspectRatio_value) LANDSCAPE.

Definition z_resolution : string -> option JValue -> Parsed (option Resolution) :=
  z_optional (z_nativeEnum [HD; FULL_HD] Resolution_value).

Definition z_person_generation (dflt : PersonGeneration)
    : string -> option JValue -> Parsed PersonGeneration :=
  z_default (z_nativeEnum [ALLOW_ALL; ALLOW_ADULT; DONT_ALLOW] PersonGeneration_value)
    dflt.

Definition GenerateVideoKeys : list string :=
  [ "prompt"; "model"; "negative_prompt"; "aspect_ratio"; "duration_seconds";
    "resolution"; "person_generation"; "response_format" ].

Definition GenerateVideoInputSchema (args : Obj) : GenParsed GenerateVideoInput :=
  let p := lift_parsed (z_string_range 1 5000 "prompt" (get args "prompt")) in
  let m := lift_parsed (z_default ModelIdSchema "veo-3.0-generate-001" "model"
                          (get args "model")) in
  let n := lift_parsed (z_negative_prompt "negative_prompt"
                          (get args "negative_prompt")) in
  let a := lift_parsed (z_aspect_ratio "aspect_ratio" (get args "aspect_ratio")) in
  let d := z_duration "duration_seconds" (get args "duration_seconds") in
  let r := lift_parsed (z_resolution "resolution" (get args "resolution")) in
  let g := lift_parsed (z_person_generation ALLOW_ALL "person_generation"
                          (get args "person_generation")) in
  let f := lift_parsed (z_response_format "response_format"
                          (get args "response_format")) in
  let s := map field_issue (strict GenerateVideoKeys args) in
  match p, m, n, a, d, r, g, f, s with
  | inr p', inr m', inr n', inr a', inr d', inr r', inr g', inr f', [] =>
      inr (mkGenerateVideoInput p' m' n' a' d' r' g' f')
  | _, _, _, _, _, _, _, _, _ =>
      inl (gen_issues_of p ++ gen_issues_of m ++ gen_issues_of n ++ gen_issues_of a
           ++ gen_issues_of d ++ gen_issues_of r ++ gen_issues_of g
           ++ gen_issues_of f ++ s)%list
  end.

(** [z.infer<typeof GenerateVideoFromImageInputSchema>]. *)
Record GenerateVideoFromImageInput : Type := mkGenerateVideoFromImageInput {
  gi_prompt : string;
  gi_image_base64 : string;
  gi_image_mime_type : string;
  gi_model : string;
  gi_negative_prompt : option string;
  gi_aspect_ratio : AspectRatio;
  gi_duration_seconds : Z;
  gi_resolution : option Resolution;
  gi_person_generation : PersonGeneration;
  gi_response_format : ResponseFormat
}.

Definition GenerateVideoFromImageKeys : list string :=
  [ "prompt"; "image_base64"; "image_mime_type"; "model"; "negative_prompt";
    "aspect_ratio"; "duration_seconds"; "resolution"; "person_generation";
    "response_format" ].

Definition GenerateVideoFromImageInputSchema (args : Obj)
    : GenParsed GenerateVideoFromImageInput :=
  let p := lift_parsed (z_string_range 1 5000 "prompt" (get args "prompt")) in
  let i := lift_parsed (z_string_min1 "image_base64" (get args "image_base64")) in
  let t := lift_parsed
             (z_default (z_enum ["image/png"; "image/jpeg"; "image/webp"])
                "image/png" "image_mime_type" (get args "image_mime_type")) in
  let m := lift_parsed (z_default ModelIdSchema "veo-3.0-generate-001" "model"
                          (get args "model")) in
  let n := lift_parsed (z_negative_prompt "negative_prompt"
                          (get args "negative_prompt")) in
  let a := lift_parsed (z_aspect_ratio "aspect_ratio" (get args "aspect_ratio")) in
  let d := z_duration "duration_seconds" (get args "duration_seconds") in
  let r := lift_parsed (z_resolution "resolution" (get args "resolution")) in
  let g := lift_parsed (z_person_generation ALLOW_ADULT "person_generation"
                          (get args "person_generation")) in
  let f := lift_parsed (z_response_format "response_format"
                          (get args "response_format")) in
  let s := map field_issue (strict GenerateVideoFromImageKeys args) in
  match p, i, t, m, n with
  | inr p', inr i', inr t', inr m', inr n' =>
      match a, d, r, g, f, s with
      | inr a', inr d', inr r', inr g', inr f', [] =>
          inr (mkGenerateVideoFromImageInput p' i' t' m' n' a' d' r' g' f')
      | _, _, _, _, _, _ =>
          inl (gen_issues_of a ++ gen_issues_of d ++ gen_issues_of r
               ++ gen_issues_of g ++ gen_issues_of f ++ s)%list
      end
  | _, _, _, _, _ =>
      inl (gen_issues_of p ++ gen_issues_of i ++ gen_issues_of t ++ gen_issues_of m
           ++ gen_issues_of n ++ gen_issues_of a ++ gen_issues_of d
           ++ gen_issues_of r ++ gen_issues_of g ++ gen_issues_of f ++ s)%list
  end.

Definition ListModelsInputSchema (args : Obj) : Parsed ResponseFormat :=
  let f := z_response_format "response_format" (get args "response_format") in
  let s := strict ["response_format"] args in
  match f, s with
  | inr f', [] => inr f'
  | _, _ => inl (issues_of f ++ s)%list
  end.

(** *** The request sent by the generation tools *)

(** [isVeo2 ? undefined : (resolution ?? Resolution.HD)]. *)
Definition effectiveResolution (model : string) (resolution : option Resolution)
    : option Resolution :=
  let isVeo2 := String.eqb model "veo-2.0-generate-001" in
  if isVeo2 then None else Some (nullish resolution HD).

(** The [parameters] object: three fixed properties, then the two
    conditional spreads. *)
Definition request_parameters (model : string) (aspect_ratio : AspectRatio)
    (duration_seconds : Z) (person_generation : PersonGeneration)
    (resolution : option Resolution) (negative_prompt : option string) : Obj :=
  ([ ("aspectRatio", JStr (AspectRatio_value aspect_ratio));
     ("durationSeconds", JInt duration_seconds);
     ("personGeneration", JStr (PersonGeneration_value person_generation)) ]
   ++ match effectiveResolution model resolution with
      | Some r => [("resolution", JStr (Resolution_value r))]
      | None => []
      end
   ++ match negative_prompt with
      | Some (String c rest) => [("negativePrompt", JStr (String c rest))]
      | _ => []
      end)%list.

(** The [request] of [veo_generate_video]. *)
Definition generate_video_request (params : GenerateVideoInput) : JValue :=
  JObj [ ("instances", JArr [JObj [("prompt", JStr (gv_prompt params))]]);
         ("parameters",
           JObj (request_parameters (gv_model params) (gv_aspect_ratio params)
                   (gv_duration_seconds params) (gv_person_generation params)
                   (gv_resolution params) (gv_negative_prompt params))) ].

(** *** Stripping the data-URI prefix of an image *)

(** The longest prefix without [";"], and what follows it: the only way
    [[^;]+] can be followed by [";base64,"]. *)
Fixpoint span_mime (s : string) : string * string :=
  match s with
  | EmptyString => (EmptyString, EmptyString)
  | String c rest =>
      if Ascii.eqb c ";" then (EmptyString, s)
      else let (m, r) := span_mime rest in (String c m, r)
  end.

(** [s] without its first [n] characters. *)
Fixpoint skip (n : nat) (s : string) : string :=
  match n, s with
  | O, _ => s
  | S n', String _ rest => skip n' rest
  | S _, EmptyString => EmptyString
  end.

Definition LF : string := String (ascii_of_nat 10) EmptyString.
Definition CR : string := String (ascii_of_nat 13) EmptyString.

(** U+2028 and U+2029 in UTF-8. *)
Definition LS : string :=
  String (ascii_of_nat 226) (String (ascii_of_nat 128)
    (String (ascii_of_nat 168) EmptyString)).
Definition PS : string :=
  String (ascii_of_nat 226) (String (ascii_of_nat 128)
    (String (ascii_of_nat 169) EmptyString)).

(** Every character of [s] is matched by [.]: none is a line
    terminator. *)
Definition all_dot (s : string) : bool :=
  negb (includes s LF) && negb (includes s CR)
  && negb (includes s LS) && negb (includes s PS).

Definition nonempty (s : string) : bool :=
  match s with EmptyString => false | String _ _ => true end.

(** [s.match(/^data:[^;]+;base64,(.+)$/)]: the captured group of a
    match. *)
Definition dataUriMatch (s : string) : option string :=
  if String.prefix "data:" s then
    let (mime, rest) := span_mime (skip 5 s) in
    if nonempty mime && String.prefix ";base64," rest then
      let payload := skip 8 rest in
      if nonempty payload && all_dot payload then Some payload else None
    else None
  else None.

(** [imageData] after the prefix is stripped. *)
Definition strip_data_uri (image_base64 : string) : string :=
  match dataUriMatch image_base64 with
  | Some payload => payload
  | None => image_base64
  end.

(** The [request] of [veo_generate_video_from_image]. *)
Definition generate_video_from_image_request (params : GenerateVideoFromImageInput)
    : JValue :=
  JObj [ ("instances",
           JArr [JObj [ ("prompt", JStr (gi_prompt params));
                        ("image",
                          JObj [ ("bytesBase64Encoded",
                                   JStr (strip_data_uri (gi_image_base64 params)));
                                 ("mimeType", JStr (gi_image_mime_type params)) ]) ]]);
         ("parameters",
           JObj (request_parameters (gi_model params) (gi_aspect_ratio params)
                   (gi_duration_seconds params) (gi_person_generation params)
                   (gi_resolution params) (gi_negative_prompt params))) ].

(** *** Handlers of the generation tools and of the model list *)

Definition submitted_output (operation : OperationResponse) (model message : string)
    : Obj :=
  [ ("operation_name", JStr (name operation));
    ("model", JStr model);
    ("status", JStr "submitted");
    ("message", JStr message) ].

Definition configLines (model : string) (duration_seconds : Z)
    (aspect_ratio : AspectRatio) (resolution : option Resolution) : list string :=
  [ "- **Duration:** " ++ show_int duration_seconds ++ " seconds";
    "- **Aspect Ratio:** " ++ AspectRatio_value aspect_ratio ]
  ++ match effectiveResolution model resolution with
     | Some r => ["- **Resolution:** " ++ Resolution_value r]
     | None => []
     end.

Definition started_lines (title : string) (operation : OperationResponse)
    (model : string) (config : list string) : list string :=
    [ title;
      "";
      "**Operation:** `" ++ name operation ++ "`";
      "**Model:** " ++ model;
      "**Status:** ⏳ Submitted";
      "";
      "## Configuration" ]
    ++ config
    ++ [ "";
         "*Use `veo_get_operation_status` or `veo_wait_for_video` to track progress and get the video URL when complete.*" ].

Definition started_markdown (title : string) (operation : OperationResponse)
    (model : string) (config : list string) : string :=
  String.concat newline (started_lines title operation model config).

(** [configLines] of the image tool, with the image format pushed last. *)
Definition image_configLines (params : GenerateVideoFromImageInput) : list string :=
  configLines (gi_model params) (gi_duration_seconds params)
    (gi_aspect_ratio params) (gi_resolution params)
  ++ ["- **Image Format:** " ++ gi_image_mime_type params].

Definition model_json (m : VeoModel) : JValue :=
  JObj [ ("id", JStr (model_id m));
         ("name", JStr (model_name m));
         ("status", JStr (model_status m));
         ("description", JStr (model_description m));
         ("features", JArr (map JStr (model_features m)));
         ("resolutions", JArr (map JStr (model_resolutions m)));
         ("durations", JArr (map JInt (model_durations m))) ].

Definition list_models_output : Obj :=
  [ ("models", JArr (map model_json VEO_MODELS)) ].

Definition model_lines (m : VeoModel) : list string :=
  let statusEmoji := if String.eqb (model_status m) "stable" then "✅" else "🔬" in
  [ "## " ++ model_name m ++ " " ++ statusEmoji;
     "**Model ID:** `" ++ model_id m ++ "`";
     "**Status:** " ++ model_status m;
     "";
     model_description m;
     "";
     "**Features:**" ]
  ++ map (fun f => "- " ++ f) (model_features m)
  ++ [ "";
       "**Resolutions:** " ++ String.concat ", " (model_resolutions m);
       "**Durations:** " ++ String.concat ", " (map show_int (model_durations m))
         ++ " seconds";
       "" ].

Section GenerationHandlers.

Variable env : Env.

(** [makeVeoRequest(endpoint, method, data)].  The body travels with the
    request; the service of the model answers by request number and URL,
    so the body is not part of what it reads. *)
Definition makeVeoRequest_data (endpoint : string) (method : Method)
    (data : JValue) : M OperationResponse :=
  makeVeoRequest env endpoint method.

Definition veo_generate_video (params : GenerateVideoInput) : M ToolResult :=
  try_catch
    (let request := generate_video_request params in
     operation <- makeVeoRequest_data
                    ("models/" ++ gv_model params ++ ":predictLongRunning")
                    POST request ;;
     let output := submitted_output operation (gv_model params)
       "Video generation started. Use veo_get_operation_status or veo_wait_for_video to track progress." in
     match gv_response_format params with
     | JSON =>
         ret {| isError := false; content := Stringify (JObj output);
                structuredContent := Some output |}
     | MARKDOWN =>
         let config := configLines (gv_model params) (gv_duration_seconds params)
                         (gv_aspect_ratio params) (gv_resolution params) in
         ret {| isError := false;
                content := Plain (started_markdown "# Video Generation Started"
                                    operation (gv_model params) config);
                structuredContent := Some output |}
     end)
    (fun e => ret (error_result e)).

Definition veo_generate_video_from_image (params : GenerateVideoFromImageInput)
    : M ToolResult :=
  try_catch
    (let request := generate_video_from_image_request params in
     operation <- makeVeoRequest_data
                    ("models/" ++ gi_model params ++ ":predictLongRunning")
                    POST request ;;
     let output := submitted_output operation (gi_model params)
       "Image-to-video generation started. Use veo_get_operation_status or veo_wait_for_video to track progress." in
     match gi_response_format params with
     | JSON =>
         ret {| isError := false; content := Stringify (JObj output);
                structuredContent := Some output |}
     | MARKDOWN =>
         let config := image_configLines params in
         ret {| isError := false;
                content := Plain (started_markdown
                                    "# Image-to-Video Generation Started"
                                    operation (gi_model params) config);
                structuredContent := Some output |}
     end)
    (fun e => ret (error_result e)).

(** [veo_list_models]: no request, no [try]. *)
Definition veo_list_models (format : ResponseFormat) : M ToolResult :=
  match format with
  | JSON =>
      ret {| isError := false; content := Stringify (JObj list_models_output);
             structuredContent := Some list_models_output |}
  | MARKDOWN =>
      ret {| isError := false;
             content := Plain (String.concat newline
                          ("# Available Veo Models" :: ""
                           :: flat_map model_lines VEO_MODELS));
             structuredContent := Some list_models_output |}
  end.

End GenerationHandlers.

(** *** Test doubles for the generation tools *)

Definition submitted : OperationResponse :=
  {| name := "models/veo-3.0-generate-001/operations/xyz789"; done := None;
     error := None; response := None |}.

Definition kite_params : GenerateVideoInput :=
  {| gv_prompt := "Wide shot of a child flying a red kite";
     gv_model := "veo-2.0-generate-001";
     gv_negative_prompt := Some "";
     gv_aspect_ratio := LANDSCAPE;
     gv_duration_seconds := 5;
     gv_resolution := Some FULL_HD;
     gv_person_generation := ALLOW_ALL;
     gv_response_format := JSON |}.

(* ------------------------------------------------------------------ *)
(** * Properties *)

(** ** The monad and the primitives *)

Lemma makeVeoRequest_configured (env : Env) (endpoint : string) (m : Method) (w : World) :
  configured env = true ->
  makeVeoRequest env endpoint m w = axios env m (url_of endpoint) w.
Proof.
  unfold configured, makeVeoRequest, getApiKey, bind, try_catch, url_of.
  intros Hkey.
  destruct (GEMINI_API_KEY env) as [[|a key]|]; try discriminate.
  unfold ret. cbn.
  destruct (axios env m _ w) as [[op|e|] w']; reflexivity.
Qed.

Lemma makeVeoRequest_unconfigured (env : Env) (endpoint : string) (m : Method) (w : World) :
  configured env = false ->
  makeVeoRequest env endpoint m w =
    (Raise (JsError "GEMINI_API_KEY environment variable is required"), w).
Proof.
  unfold configured, makeVeoRequest, getApiKey, bind.
  intros Hkey.
  destruct (GEMINI_API_KEY env) as [[|a key]|]; try discriminate; reflexivity.
Qed.

Lemma timer_delay_valid (ms : Z) :
  1 <= ms <= 2147483647 -> timer_delay ms = ms.
Proof.
  intros H. unfold timer_delay.
  destruct (Z.ltb_spec ms 1); [lia|].
  destruct (Z.ltb_spec 2147483647 ms); [lia|]. reflexivity.
Qed.

Lemma timer_delay_pos (ms : Z) : 1 <= timer_delay ms.
Proof.
  unfold timer_delay.
  destruct (Z.ltb_spec ms 1); cbn; [lia|].
  destruct (Z.ltb_spec 2147483647 ms); cbn; lia.
Qed.

Section TimelineFacts.

Variable env : Env.
Variable endpoint : string.
Variables pollIntervalMs timeoutMs t0 : Z.

#[local] Abbreviation after := (world_after env endpoint pollIntervalMs t0).
#[local] Abbreviation settled := (world_settled env endpoint pollIntervalMs t0).
#[local] Abbreviation elapsed := (elapsed_at env endpoint pollIntervalMs t0).
#[local] Abbreviation is_quiet := (quiet env endpoint pollIntervalMs timeoutMs t0).

Lemma counters_after (c : nat) : sent (after c) = c /\ timers (after c) = c.
Proof.
  induction c as [|c [IHs IHt]]; [split; reflexivity|].
  cbn [world_after]. unfold sleep, axios.
  destruct (http env (S (sent (after c))) (url_of endpoint)); cbn.
  all: rewrite IHs, IHt; split; reflexivity.
Qed.

Lemma axios_after (c : nat) :
  axios env GET (url_of endpoint) (after c) =
    (match http env (S c) (url_of endpoint) with
     | Data operation => Ret operation
     | Fails e => Raise e
     end, settled c).
Proof.
  unfold world_settled, axios.
  destruct (counters_after c) as [Hs _]. rewrite Hs.
  destruct (http env (S c) (url_of endpoint)); reflexivity.
Qed.

Lemma sleep_settled (c : nat) :
  sleep env pollIntervalMs (settled c) = (Ret tt, after (S c)).
Proof. reflexivity. Qed.

Lemma now_settled (c : nat) :
  now (settled c) = now (after c) + Z.of_N (latency env (S c)).
Proof.
  unfold world_settled, axios.
  destruct (counters_after c) as [Hs _]. rewrite Hs.
  destruct (http env (S c) (url_of endpoint)); reflexivity.
Qed.

Lemma counters_settled (c : nat) :
  sent (settled c) = S c /\ timers (settled c) = c.
Proof.
  unfold world_settled, axios.
  destruct (counters_after c) as [Hs Ht]. rewrite Hs, Ht.
  destruct (http env (S c) (url_of endpoint)); split; reflexivity.
Qed.

Lemma now_after_S (c : nat) :
  now (after (S c)) =
    now (settled c) + timer_delay pollIntervalMs + Z.of_N (timer_extra env (S c)).
Proof.
  change (after (S c)) with (snd (sleep env pollIntervalMs (settled c))).
  unfold sleep. cbn.
  destruct (counters_settled c) as [_ Ht]. rewrite Ht. reflexivity.
Qed.

(** The clock on entry to iteration [c+1], in closed form. *)
Lemma now_after (c : nat) :
  now (after c) =
    t0 + Z.of_nat c * timer_delay pollIntervalMs
       + latency_sum env c + extra_sum env c.
Proof.
  induction c as [|c IH]; [cbn; lia|].
  rewrite now_after_S, now_settled, IH.
  cbn [latency_sum extra_sum]. lia.
Qed.

(** [elapsed] after request [c+1], in closed form. *)
Lemma elapsed_closed (c : nat) :
  elapsed c =
    Z.of_nat c * timer_delay pollIntervalMs + total_lag env (S c).
Proof.
  unfold elapsed_at, total_lag. rewrite now_settled, now_after.
  cbn [latency_sum pred]. lia.
Qed.

Lemma latency_sum_nonneg (n : nat) : 0 <= latency_sum env n.
Proof. induction n; cbn [latency_sum]; lia. Qed.

Lemma extra_sum_nonneg (n : nat) : 0 <= extra_sum env n.
Proof. induction n; cbn [extra_sum]; lia. Qed.

Lemma latency_sum_mono (n m : nat) :
  (n <= m)%nat -> latency_sum env n <= latency_sum env m.
Proof.
  induction 1 as [|m Hle IH]; [lia|]. cbn [latency_sum]. lia.
Qed.

Lemma extra_sum_mono (n m : nat) :
  (n <= m)%nat -> extra_sum env n <= extra_sum env m.
Proof.
  induction 1 as [|m Hle IH]; [lia|]. cbn [extra_sum]. lia.
Qed.

Lemma total_lag_nonneg (n : nat) : 0 <= total_lag env n.
Proof.
  unfold total_lag.
  pose proof (latency_sum_nonneg n). pose proof (extra_sum_nonneg (pred n)). lia.
Qed.

Lemma total_lag_mono (n m : nat) :
  (n <= m)%nat -> total_lag env n <= total_lag env m.
Proof.
  intros H. unfold total_lag.
  pose proof (latency_sum_mono n m H).
  pose proof (extra_sum_mono (pred n) (pred m)). lia.
Qed.

(** After [c] sleeps at least [c] timer delays have passed. *)
Lemma elapsed_lower (c : nat) :
  Z.of_nat c * timer_delay pollIntervalMs <= elapsed c.
Proof.
  rewrite elapsed_closed. pose proof (total_lag_nonneg (S c)). lia.
Qed.

Section Loop.

Variable params : WaitForVideoInput.
Hypothesis Hkey : configured env = true.

#[local] Abbreviation loop :=
  (poll_loop env params endpoint t0 timeoutMs pollIntervalMs).

(** A quiet iteration hands over to the next one. *)
Lemma poll_loop_step (fuel c : nat) :
  is_quiet c = true ->
  loop (S fuel) c (after c) = loop fuel (S c) (after (S c)).
Proof.
  unfold quiet. intros Hq.
  cbn [poll_loop]. unfold bind at 1.
  rewrite makeVeoRequest_configured by exact Hkey.
  rewrite axios_after.
  destruct (http env (S c) (url_of endpoint)) as [operation|e]; [|discriminate].
  apply andb_true_iff in Hq. destruct Hq as [Hterm Hlt].
  apply negb_true_iff in Hterm. unfold terminal in Hterm. rewrite Hterm.
  unfold bind, date_now.
  fold (elapsed c).
  change (now (settled c) - t0) with (elapsed c).
  apply Z.ltb_lt in Hlt.
  destruct (Z.leb_spec timeoutMs (elapsed c)); [lia|].
  rewrite sleep_settled. reflexivity.
Qed.

(** An iteration that is not quiet leaves the loop. *)
Lemma poll_loop_exit (fuel c : nat) :
  is_quiet c = false ->
  loop (S fuel) c (after c) =
    exit_at env endpoint pollIntervalMs t0 params c.
Proof.
  unfold quiet, exit_at. intros Hq.
  cbn [poll_loop]. unfold bind at 1.
  rewrite makeVeoRequest_configured by exact Hkey.
  rewrite axios_after.
  destruct (http env (S c) (url_of endpoint)) as [operation|e]; [|reflexivity].
  fold (terminal operation).
  destruct (terminal operation) eqn:Hterm; [reflexivity|].
  cbn in Hq. apply Z.ltb_ge in Hq.
  unfold bind, date_now.
  change (now (settled c) - t0) with (elapsed c).
  destruct (Z.leb_spec timeoutMs (elapsed c)); [reflexivity|lia].
Qed.

(** Quiet iterations only consume fuel. *)
Lemma poll_loop_quiet_prefix (k fuel : nat) :
  (forall j, (j < k)%nat -> is_quiet j = true) ->
  loop (k + fuel) 0 (fresh t0) = loop fuel k (after k).
Proof.
  induction k as [|k IH] in fuel |- *; intros Hq; [reflexivity|].
  replace (S k + fuel)%nat with (k + S fuel)%nat by lia.
  rewrite IH by (intros j Hj; apply Hq; lia).
  apply poll_loop_step. apply Hq. lia.
Qed.

(** The loop leaves at the first iteration that is not quiet. *)
Lemma poll_loop_first_exit (k fuel : nat) :
  (forall j, (j < k)%nat -> is_quiet j = true) ->
  is_quiet k = false ->
  (k < fuel)%nat ->
  loop fuel 0 (fresh t0) = exit_at env endpoint pollIntervalMs t0 params k.
Proof.
  intros Hq Hk Hfuel.
  replace fuel with (k + S (fuel - S k))%nat by lia.
  rewrite poll_loop_quiet_prefix by exact Hq.
  apply poll_loop_exit. exact Hk.
Qed.

End Loop.

End TimelineFacts.

(** ** What the handlers return *)

Section Returns.

Variable env : Env.
Variable params : WaitForVideoInput.

(** The handler is its loop followed by the code after the loop. *)
Lemma wait_unfold_at (fuel : nat) (w : World) :
  veo_wait_for_video env fuel params w =
    match poll_loop env params (wait_operationPath (operation_name params))
            (now w) (timeout_seconds params * 1000)
            (poll_interval_seconds params * 1000) fuel 0 w with
    | (Ret (Return result), w') => (Ret result, w')
    | (Ret (Break operation pollCount), w') =>
        (Ret {| isError := false;
                content := formatOperationStatus operation (response_format params);
                structuredContent :=
                  Some (final_output operation (now w' - now w) pollCount) |}, w')
    | (Raise e, w') => (Ret (error_result e), w')
    | (OutOfFuel, w') => (OutOfFuel, w')
    end.
Proof.
  unfold veo_wait_for_video, try_catch, bind, date_now, ret.
  destruct (poll_loop env params _ (now w) _ _ fuel 0 w)
    as [[[operation pollCount|result]|e|] w']; reflexivity.
Qed.

(** The loop breaks only on a terminal snapshot, and returns only the
    timeout result, on a pending snapshot past the deadline. *)
Lemma poll_loop_returns (endpoint : string) (startTime timeoutMs pollIntervalMs : Z)
    (fuel c : nat) (w w' : World) (exit : LoopExit) :
  poll_loop env params endpoint startTime timeoutMs pollIntervalMs fuel c w
    = (Ret exit, w') ->
  match exit with
  | Break operation pollCount => terminal operation = true
  | Return result =>
      exists operation elapsed pollCount,
        result = timeout_result operation params elapsed pollCount /\
        terminal operation = false /\ timeoutMs <= elapsed
  end.
Proof.
  induction fuel as [|fuel IH] in c, w |- *; [discriminate|].
  cbn [poll_loop]. unfold bind at 1.
  destruct (makeVeoRequest env endpoint GET w) as [[operation|e|] w1];
    try discriminate.
  fold (terminal operation).
  destruct (terminal operation) eqn:Hterm.
  - intros H. inversion H; subst. exact Hterm.
  - unfold bind at 1, date_now at 1.
    destruct (Z.leb_spec timeoutMs (now w1 - startTime)) as [Hlate|Hearly].
    + intros H. inversion H; subst.
      exists operation, (now w' - startTime), (S c). auto.
    + unfold bind at 1.
      change (sleep env pollIntervalMs w1) with
        (Ret tt, snd (sleep env pollIntervalMs w1)).
      apply IH.
Qed.

(** The status handler on a request that succeeds, and on one that
    throws. *)
Lemma status_run (sp : GetOperationStatusInput) (w : World) :
  configured env = true ->
  fst (veo_get_operation_status env sp w) =
    match http env (S (sent w)) (url_of (status_operationPath (gs_operation_name sp))) with
    | Data operation =>
        Ret {| isError := false;
               content := formatOperationStatus operation (gs_response_format sp);
               structuredContent := Some (status_output operation) |}
    | Fails e => Ret (error_result e)
    end.
Proof.
  intros Hkey.
  unfold veo_get_operation_status, try_catch, bind.
  rewrite makeVeoRequest_configured by exact Hkey.
  unfold axios.
  destruct (http env (S (sent w)) _); reflexivity.
Qed.

End Returns.


(** ** The wait handler, case by case *)

Lemma first_false (f : nat -> bool) (n : nat) :
  f n = false ->
  exists k, (k <= n)%nat /\ f k = false /\ forall j, (j < k)%nat -> f j = true.
Proof.
  induction n as [n IH] using (well_founded_induction Wf_nat.lt_wf).
  intros Hn.
  destruct (existsb (fun j => negb (f j)) (seq 0 n)) eqn:He.
  - apply existsb_exists in He. destruct He as [j [Hin Hj]].
    apply in_seq in Hin. apply negb_true_iff in Hj.
    destruct (IH j ltac:(lia) Hj) as [k [Hle [Hk Hlt]]].
    exists k. repeat split; [lia|exact Hk|exact Hlt].
  - exists n. repeat split; [lia|exact Hn|].
    intros j Hj.
    destruct (f j) eqn:Hfj; [reflexivity|].
    assert (Hex : existsb (fun j => negb (f j)) (seq 0 n) = true).
    { apply existsb_exists. exists j. split; [apply in_seq; lia|].
      rewrite Hfj. reflexivity. }
    congruence.
Qed.

Lemma ceil_div_bounds (a b : Z) :
  0 < b -> (ceil_div a b - 1) * b < a /\ a <= ceil_div a b * b.
Proof.
  intros Hb. unfold ceil_div.
  pose proof (Z.div_mod (a + b - 1) b ltac:(lia)) as Hdm.
  pose proof (Z.mod_pos_bound (a + b - 1) b Hb) as Hm.
  nia.
Qed.

Lemma round_seconds_lower (t ms : Z) :
  t * 1000 <= ms -> t <= round_seconds ms.
Proof.
  intros H. unfold round_seconds.
  apply Z.div_le_lower_bound; lia.
Qed.

Section WaitRuns.

Variable env : Env.
Variable params : WaitForVideoInput.
Variable t0 : Z.
Hypothesis Hkey : configured env = true.

#[local] Abbreviation path := (wait_operationPath (operation_name params)).
#[local] Abbreviation P := (poll_interval_seconds params * 1000).
#[local] Abbreviation T := (timeout_seconds params * 1000).
#[local] Abbreviation nth_quiet := (quiet env path P T t0).
#[local] Abbreviation nth_elapsed := (elapsed_at env path P t0).
#[local] Abbreviation nth_settled := (world_settled env path P t0).

(** [wait_unfold_at] for a call that starts in a fresh world. *)
Lemma wait_unfold (fuel : nat) :
  veo_wait_for_video env fuel params (fresh t0) =
    match poll_loop env params path t0 T P fuel 0 (fresh t0) with
    | (Ret (Return result), w) => (Ret result, w)
    | (Ret (Break operation pollCount), w) =>
        (Ret {| isError := false;
                content := formatOperationStatus operation (response_format params);
                structuredContent :=
                  Some (final_output operation (now w - t0) pollCount) |}, w)
    | (Raise e, w) => (Ret (error_result e), w)
    | (OutOfFuel, w) => (OutOfFuel, w)
    end.
Proof. exact (wait_unfold_at env params fuel (fresh t0)). Qed.

Section FirstExit.

Variables (k fuel : nat).
Hypothesis Hquiet : forall j, (j < k)%nat -> nth_quiet j = true.
Hypothesis Hfuel : (k < fuel)%nat.

(** Request [k+1] throws: the handler returns the error result. *)
Lemma wait_run_fails (e : Thrown) :
  http env (S k) (url_of path) = Fails e ->
  veo_wait_for_video env fuel params (fresh t0) =
    (Ret (error_result e), nth_settled k).
Proof.
  intros Hk. rewrite wait_unfold.
  rewrite (poll_loop_first_exit env path P T t0 params Hkey k fuel Hquiet);
    [|unfold quiet; rewrite Hk; reflexivity|exact Hfuel].
  unfold exit_at. rewrite Hk. reflexivity.
Qed.

(** Request [k+1] returns a terminal snapshot: the loop breaks. *)
Lemma wait_run_break (operation : OperationResponse) :
  http env (S k) (url_of path) = Data operation ->
  terminal operation = true ->
  veo_wait_for_video env fuel params (fresh t0) =
    (Ret {| isError := false;
            content := formatOperationStatus operation (response_format params);
            structuredContent :=
              Some (final_output operation (nth_elapsed k) (S k)) |},
     nth_settled k).
Proof.
  intros Hk Hterm. rewrite wait_unfold.
  rewrite (poll_loop_first_exit env path P T t0 params Hkey k fuel Hquiet);
    [|unfold quiet; rewrite Hk, Hterm; reflexivity|exact Hfuel].
  unfold exit_at. rewrite Hk, Hterm. reflexivity.
Qed.

(** Request [k+1] returns a pending snapshot past the deadline. *)
Lemma wait_run_timeout (operation : OperationResponse) :
  http env (S k) (url_of path) = Data operation ->
  terminal operation = false ->
  T <= nth_elapsed k ->
  veo_wait_for_video env fuel params (fresh t0) =
    (Ret (timeout_result operation params (nth_elapsed k) (S k)),
     nth_settled k).
Proof.
  intros Hk Hterm Hlate. rewrite wait_unfold.
  assert (Hnq : nth_quiet k = false).
  { unfold quiet. rewrite Hk, Hterm. cbn. apply Z.ltb_ge. exact Hlate. }
  rewrite (poll_loop_first_exit env path P T t0 params Hkey k fuel Hquiet Hnq Hfuel).
  unfold exit_at. rewrite Hk, Hterm. reflexivity.
Qed.

End FirstExit.

Hypothesis Hp : 5 <= poll_interval_seconds params <= 60.
Hypothesis Ht : 30 <= timeout_seconds params <= 600.

#[local] Abbreviation N := (ceil_div (timeout_seconds params) (poll_interval_seconds params)).

Lemma delay_valid : timer_delay P = P.
Proof. apply timer_delay_valid. lia. Qed.

Lemma N_bounds : 1 <= N <= 120.
Proof.
  unfold ceil_div. split.
  - apply Z.div_le_lower_bound; lia.
  - enough ((timeout_seconds params + poll_interval_seconds params - 1)
              / poll_interval_seconds params < 121) by lia.
    apply Z.div_lt_upper_bound; lia.
Qed.

(** Once [N] sleeps are over the deadline has passed. *)
Lemma not_quiet_N : nth_quiet (Z.to_nat N) = false.
Proof.
  destruct (nth_quiet (Z.to_nat N)) eqn:Hq; [|reflexivity].
  exfalso. unfold quiet in Hq.
  destruct (http env (S (Z.to_nat N)) (url_of path)); [|discriminate].
  apply andb_true_iff in Hq. destruct Hq as [_ Hlt]. apply Z.ltb_lt in Hlt.
  pose proof (elapsed_lower env path P t0 (Z.to_nat N)) as Hlow.
  rewrite delay_valid in Hlow.
  pose proof N_bounds.
  pose proof (ceil_div_bounds (timeout_seconds params)
                (poll_interval_seconds params) ltac:(lia)) as [_ Hc].
  rewrite Z2Nat.id in Hlow by lia. nia.
Qed.

(** Some iteration among the first [N+1] leaves the loop. *)
Lemma first_exit_exists :
  exists k, (k <= Z.to_nat N)%nat /\ nth_quiet k = false /\
            forall j, (j < k)%nat -> nth_quiet j = true.
Proof. apply first_false. exact not_quiet_N. Qed.

(** With fuel for [N+1] iterations the handler returns a result. *)
Lemma wait_terminates (fuel : nat) :
  (Z.to_nat N < fuel)%nat ->
  exists result, fst (veo_wait_for_video env fuel params (fresh t0)) = Ret result.
Proof.
  intros Hfuel.
  destruct first_exit_exists as (k & Hle & Hnq & Hq).
  rewrite wait_unfold.
  rewrite (poll_loop_first_exit env path P T t0 params Hkey k fuel Hq Hnq)
    by lia.
  unfold exit_at.
  destruct (http env (S k) (url_of path)) as [operation|e];
    [destruct (terminal operation)|]; eexists; reflexivity.
Qed.

End WaitRuns.

(** ** C1: waiting on an operation that never completes *)

(** C1, as the code has it.  For a valid poll interval [p] and timeout [t]
    with [t >= p], a wait call whose every fetch returns a snapshot with no
    done flag and no error returns the timeout outcome (status "timeout",
    not an error result); the elapsed time is at least [t] and the poll
    count is at least 1 and at most [⌈t/p⌉ + 1].  The lower bound
    [⌈t/p⌉ - 1] holds when the time lost in the fetches themselves and to
    late timers is at most two poll intervals, and the count is exactly
    [⌈t/p⌉ + 1] when no time is lost at all. *)
Theorem wait_never_done_times_out
    (env : Env) (id : string) (p t : Z) (format : ResponseFormat)
    (t0 : Z) (fuel : nat) :
  configured env = true ->
  5 <= p <= 60 ->
  30 <= t <= 600 ->
  p <= t ->
  (forall j, exists operation,
      http env j (url_of (wait_operationPath id)) = Data operation /\
      done_truthy operation = false /\ error operation = None) ->
  (Z.to_nat (ceil_div t p) < fuel)%nat ->
  exists operation elapsed n w' output,
    veo_wait_for_video env fuel (mkWaitForVideoInput id p t format) (fresh t0)
      = (Ret (timeout_result operation (mkWaitForVideoInput id p t format) elapsed n), w') /\
    isError (timeout_result operation (mkWaitForVideoInput id p t format) elapsed n) = false /\
    structuredContent
      (timeout_result operation (mkWaitForVideoInput id p t format) elapsed n)
      = Some output /\
    get output "status" = Some (JStr "timeout") /\
    get output "elapsed_seconds" = Some (JInt (round_seconds elapsed)) /\
    get output "poll_count" = Some (JInt (Z.of_nat n)) /\
    elapsed = now w' - t0 /\
    t * 1000 <= elapsed /\
    t <= round_seconds elapsed /\
    1 <= Z.of_nat n <= ceil_div t p + 1 /\
    (total_lag env (Z.to_nat (ceil_div t p)) <= 2 * (p * 1000) ->
       ceil_div t p - 1 <= Z.of_nat n) /\
    (total_lag env (Z.to_nat (ceil_div t p)) = 0 ->
       Z.of_nat n = ceil_div t p + 1).
Proof.
  intros Hkey Hp Ht Hpt Hpend Hfuel.
  set (params := mkWaitForVideoInput id p t format).
  destruct (first_exit_exists env params t0 Hp Ht) as [k [Hle [Hnq Hq]]].
  cbn [operation_name poll_interval_seconds timeout_seconds params] in *.
  destruct (Hpend (S k)) as [operation [Hop [Hdone Herr]]].
  assert (Hterm : terminal operation = false).
  { unfold terminal, error_truthy. rewrite Hdone, Herr. reflexivity. }
  assert (Hlate : t * 1000 <= elapsed_at env (wait_operationPath id) (p * 1000) t0 k).
  { unfold quiet in Hnq. rewrite Hop, Hterm in Hnq. cbn in Hnq.
    apply Z.ltb_ge in Hnq. exact Hnq. }
  pose proof (wait_run_timeout env params t0 Hkey k fuel Hq ltac:(lia)
                operation Hop Hterm Hlate) as Hrun.
  pose proof (N_bounds params Hp Ht) as HN.
  pose proof (ceil_div_bounds t p ltac:(lia)) as [HNlo HNhi].
  pose proof (elapsed_closed env (wait_operationPath id) (p * 1000) t0 k) as Hcl.
  rewrite timer_delay_valid in Hcl by lia.
  cbn [poll_interval_seconds timeout_seconds params] in HN.
  set (N := ceil_div t p) in *.
  exists operation, (elapsed_at env (wait_operationPath id) (p * 1000) t0 k),
    (S k), (world_settled env (wait_operationPath id) (p * 1000) t0 k),
    (timeout_output operation params
       (elapsed_at env (wait_operationPath id) (p * 1000) t0 k) (S k)).
  split; [exact Hrun|].
  split; [destruct format; reflexivity|].
  split; [destruct format; reflexivity|].
  split; [reflexivity|]. split; [reflexivity|]. split; [reflexivity|].
  split; [reflexivity|].
  split; [exact Hlate|].
  split; [apply round_seconds_lower; exact Hlate|].
  split; [lia|].
  split.
  - intros Hlag.
    destruct (Z.le_gt_cases (N - 1) (Z.of_nat (S k))) as [|Hsmall]; [assumption|].
    exfalso.
    pose proof (total_lag_mono env (S k) (Z.to_nat N) ltac:(lia)) as Hmono.
    nia.
  - intros Hlag.
    destruct (Z.eq_dec (Z.of_nat (S k)) (N + 1)) as [|Hne]; [assumption|].
    exfalso.
    pose proof (total_lag_mono env (S k) (Z.to_nat N) ltac:(lia)) as Hmono.
    pose proof (total_lag_nonneg env (S k)).
    nia.
Qed.

(** The theorem at a stub that answers at once: [p = 10], [t = 30]. *)
Lemma wait_never_done_times_out_witness :
  exists operation elapsed n w' output,
    veo_wait_for_video (stub_env (fun _ => Data pending) 0) 4
      (mkWaitForVideoInput "abc123" 10 30 JSON) (fresh 0)
      = (Ret (timeout_result operation (mkWaitForVideoInput "abc123" 10 30 JSON) elapsed n), w') /\
    isError (timeout_result operation (mkWaitForVideoInput "abc123" 10 30 JSON) elapsed n) = false /\
    structuredContent
      (timeout_result operation (mkWaitForVideoInput "abc123" 10 30 JSON) elapsed n)
      = Some output /\
    get output "status" = Some (JStr "timeout") /\
    get output "elapsed_seconds" = Some (JInt (round_seconds elapsed)) /\
    get output "poll_count" = Some (JInt (Z.of_nat n)) /\
    elapsed = now w' - 0 /\
    30 * 1000 <= elapsed /\
    30 <= round_seconds elapsed /\
    1 <= Z.of_nat n <= ceil_div 30 10 + 1 /\
    (total_lag (stub_env (fun _ => Data pending) 0) (Z.to_nat (ceil_div 30 10))
       <= 2 * (10 * 1000) ->
       ceil_div 30 10 - 1 <= Z.of_nat n) /\
    (total_lag (stub_env (fun _ => Data pending) 0) (Z.to_nat (ceil_div 30 10)) = 0 ->
       Z.of_nat n = ceil_div 30 10 + 1).
Proof.
  apply (wait_never_done_times_out
           (stub_env (fun _ => Data pending) 0) "abc123" 10 30 JSON 0 4).
  - reflexivity.
  - lia.
  - lia.
  - lia.
  - intros j. exists pending. repeat split; reflexivity.
  - vm_compute. lia.
Defined.

(** C1 as stated fails as soon as the fetches take time: with [p = 5] s,
    [t = 600] s and every fetch taking 200 ms, the call times out after
    117 polls, below [⌈600/5⌉ - 1 = 119]. *)
Lemma fetch_latency_lowers_poll_count :
  returned_field
    (veo_wait_for_video (stub_env (fun _ => Data pending) 200) 200
       (mkWaitForVideoInput "abc123" 5 600 JSON) (fresh 0)) "status"
    = Some (JStr "timeout") /\
  returned_field
    (veo_wait_for_video (stub_env (fun _ => Data pending) 200) 200
       (mkWaitForVideoInput "abc123" 5 600 JSON) (fresh 0)) "poll_count"
    = Some (JInt 117) /\
  ~ (ceil_div 600 5 - 1 <= 117).
Proof.
  split; [vm_compute; reflexivity|].
  split; [vm_compute; reflexivity|].
  vm_compute. intros H. apply H. reflexivity.
Qed.

(** ** C2: an operation that completes on its [k]-th fetch *)

(** C2, as the code has it.  For a valid poll interval [p] and timeout
    [t], if fetches [1..k-1] return snapshots with no done flag and no
    error, the [k]-th fetch returns a snapshot with [done = true] and no
    error, [k * p < t], and the time lost in the fetches and to late timers
    before the [k]-th fetch is at most two poll intervals, then wait returns
    the completed outcome with poll count exactly [k]. *)
Theorem wait_completes_on_kth_fetch
    (env : Env) (id : string) (p t : Z) (format : ResponseFormat)
    (t0 : Z) (fuel k : nat) (operation : OperationResponse) :
  configured env = true ->
  5 <= p <= 60 ->
  30 <= t <= 600 ->
  (1 <= k)%nat ->
  (forall j, (1 <= j < k)%nat -> exists o,
      http env j (url_of (wait_operationPath id)) = Data o /\
      done_truthy o = false /\ error o = None) ->
  http env k (url_of (wait_operationPath id)) = Data operation ->
  done operation = Some true ->
  error operation = None ->
  Z.of_nat k * p < t ->
  total_lag env (k - 1) <= 2 * (p * 1000) ->
  (k <= fuel)%nat ->
  exists elapsed w',
    veo_wait_for_video env fuel (mkWaitForVideoInput id p t format) (fresh t0)
      = (Ret {| isError := false;
                content := formatOperationStatus operation format;
                structuredContent := Some (final_output operation elapsed k) |},
         w') /\
    get (final_output operation elapsed k) "status" = Some (JStr "completed") /\
    get (final_output operation elapsed k) "poll_count" = Some (JInt (Z.of_nat k)) /\
    get (final_output operation elapsed k) "video_urls" = Some (video_urls_of operation) /\
    elapsed = now w' - t0 /\
    sent w' = k.
Proof.
  intros Hkey Hp Ht Hk Hpend Hop Hdone Herr Hkp Hlag Hfuel.
  destruct k as [|c]; [lia|].
  set (params := mkWaitForVideoInput id p t format).
  assert (Hterm : terminal operation = true).
  { unfold terminal, done_truthy. rewrite Hdone. reflexivity. }
  assert (Hq : forall j, (j < c)%nat ->
             quiet env (wait_operationPath id) (p * 1000) (t * 1000) t0 j = true).
  { intros j Hj. unfold quiet.
    destruct (Hpend (S j) ltac:(lia)) as [o [Ho [Hd He]]].
    rewrite Ho. unfold terminal, error_truthy. rewrite Hd, He. cbn.
    apply Z.ltb_lt.
    rewrite elapsed_closed, timer_delay_valid by lia.
    pose proof (total_lag_mono env (S j) (S c - 1) ltac:(lia)).
    nia. }
  pose proof (wait_run_break env params t0 Hkey c fuel Hq ltac:(lia)
                operation Hop Hterm) as Hrun.
  exists (elapsed_at env (wait_operationPath id) (p * 1000) t0 c),
    (world_settled env (wait_operationPath id) (p * 1000) t0 c).
  split; [exact Hrun|].
  split; [cbn; unfold error_truthy; rewrite Herr; reflexivity|].
  split; [reflexivity|]. split; [reflexivity|]. split; [reflexivity|].
  apply counters_settled.
Qed.

(** The theorem at a stub that answers at once and reports completion on
    the third fetch: [p = 5], [t = 30], [k = 3]. *)
Lemma wait_completes_on_kth_fetch_witness :
  exists elapsed w',
    veo_wait_for_video
      (stub_env (fun j => if (j <? 3)%nat then Data pending else Data finished) 0)
      3 (mkWaitForVideoInput "abc123" 5 30 MARKDOWN) (fresh 0)
      = (Ret {| isError := false;
                content := formatOperationStatus finished MARKDOWN;
                structuredContent := Some (final_output finished elapsed 3) |},
         w') /\
    get (final_output finished elapsed 3) "status" = Some (JStr "completed") /\
    get (final_output finished elapsed 3) "poll_count" = Some (JInt (Z.of_nat 3)) /\
    get (final_output finished elapsed 3) "video_urls" = Some (video_urls_of finished) /\
    elapsed = now w' - 0 /\
    sent w' = 3%nat.
Proof.
  apply (wait_completes_on_kth_fetch
           (stub_env (fun j => if (j <? 3)%nat then Data pending else Data finished) 0)
           "abc123" 5 30 MARKDOWN 0 3 3 finished).
  - reflexivity.
  - lia.
  - lia.
  - lia.
  - intros j Hj. exists pending. cbn [http stub_env].
    destruct (Nat.ltb_spec j 3); [|lia]. repeat split; reflexivity.
  - reflexivity.
  - reflexivity.
  - reflexivity.
  - lia.
  - vm_compute. discriminate.
  - lia.
Defined.

(** C2 as stated fails in two ways, both with [k * p < t].  A snapshot
    with [done = true] that also carries an error is reported as failed
    (here [k = 1], [p = 5], [t = 30]).  And when every fetch takes 200 ms,
    a stub that completes on its 119th fetch is never asked a 119th time:
    with [p = 5] and [t = 600] ([119 * 5 < 600]) the call times out after
    117 polls. *)
Lemma done_fetch_not_always_completed :
  (returned_field
     (veo_wait_for_video (stub_env (fun _ => Data done_with_error) 0) 200
        (mkWaitForVideoInput "abc123" 5 30 JSON) (fresh 0)) "status"
     = Some (JStr "failed") /\
   returned_field
     (veo_wait_for_video (stub_env (fun _ => Data done_with_error) 0) 200
        (mkWaitForVideoInput "abc123" 5 30 JSON) (fresh 0)) "poll_count"
     = Some (JInt 1)) /\
  (119 * 5 < 600 /\
   returned_field
     (veo_wait_for_video
        (stub_env (fun j => if (j <? 119)%nat then Data pending else Data finished) 200)
        200 (mkWaitForVideoInput "abc123" 5 600 JSON) (fresh 0)) "status"
     = Some (JStr "timeout") /\
   returned_field
     (veo_wait_for_video
        (stub_env (fun j => if (j <? 119)%nat then Data pending else Data finished) 200)
        200 (mkWaitForVideoInput "abc123" 5 600 JSON) (fresh 0)) "poll_count"
     = Some (JInt 117)).
Proof. repeat split; vm_compute; reflexivity. Qed.

(** ** Identifier normalization (C3, C4) *)

Lemma includes_qualified (s : string) : includes ("operations/" ++ s) "/" = true.
Proof. destruct s; reflexivity. Qed.

(** [includes s "/"] says that [s] contains a path separator. *)
Lemma includes_slash_iff (s : string) :
  includes s "/" = true <-> exists a b, s = a ++ "/" ++ b.
Proof.
  split.
  - induction s as [|c s IH]; [discriminate|].
    cbn [includes String.prefix].
    destruct (ascii_dec "/" c) as [Heq|Hne].
    + intros _. exists "", s. subst c. reflexivity.
    + intros H. destruct (IH H) as (a & b & Hs).
      exists (String c a), b. rewrite Hs. reflexivity.
  - intros (a & b & Hs). subst s.
    induction a as [|c a IH].
    + destruct b; reflexivity.
    + cbn [append includes] in IH |- *. rewrite IH.
      destruct (String.prefix "/" _); reflexivity.
Qed.

(** C3.  Normalization is idempotent: a string that contains a path
    separator is returned unchanged; a bare token gets the single
    qualified form ["operations/" ++ s], and normalizing that form again
    returns the same value. *)
Theorem normalization_idempotent (s : string) :
  ((exists a b, s = a ++ "/" ++ b) -> status_operationPath s = s) /\
  ((forall a b, s <> a ++ "/" ++ b) ->
     status_operationPath s = "operations/" ++ s /\
     status_operationPath ("operations/" ++ s) = "operations/" ++ s) /\
  status_operationPath (status_operationPath s) = status_operationPath s.
Proof.
  assert (Hq : forall x, includes x "/" = true -> status_operationPath x = x).
  { intros x H. unfold status_operationPath. rewrite H. reflexivity. }
  assert (Hb : forall x, includes x "/" = false ->
                 status_operationPath x = "operations/" ++ x).
  { intros x H. unfold status_operationPath. rewrite H. reflexivity. }
  split; [intros H; apply Hq, includes_slash_iff, H|]. split.
  - intros Hbare.
    assert (H : includes s "/" = false).
    { destruct (includes s "/") eqn:E; [|reflexivity].
      apply includes_slash_iff in E. destruct E as (a & b & E).
      exfalso. exact (Hbare a b E). }
    split; [apply Hb; exact H|].
    apply Hq. apply includes_qualified.
  - destruct (includes s "/") eqn:H.
    + rewrite (Hq s H). apply Hq. exact H.
    + rewrite (Hb s H). apply Hq. apply includes_qualified.
Qed.

(** The theorem at a qualified identifier and at a bare token. *)
Lemma normalization_idempotent_witness :
  status_operationPath "operations/abc123" = "operations/abc123" /\
  status_operationPath "abc123" = "operations/abc123" /\
  status_operationPath (status_operationPath "abc123") = status_operationPath "abc123".
Proof.
  destruct (normalization_idempotent "operations/abc123") as (Hqualified & _ & _).
  destruct (normalization_idempotent "abc123") as (_ & Hbare & Hidem).
  split; [|split].
  - apply Hqualified. exists "operations", "abc123". reflexivity.
  - apply Hbare. intros a b H.
    assert (E : includes "abc123" "/" = true)
      by (apply includes_slash_iff; exists a, b; exact H).
    discriminate E.
  - exact Hidem.
Defined.

Lemma Forall_snoc {A : Type} (Q : A -> Prop) (l : list A) (x : A) :
  Forall Q l -> Q x -> Forall Q (l ++ [x]).
Proof.
  intros Hl Hx. apply Forall_app. split; [exact Hl|].
  constructor; [exact Hx|constructor].
Qed.

Section RequestsTo.

Variable env : Env.

Lemma makeVeoRequest_log (endpoint : string) (w : World) :
  Forall (requests_to (url_of endpoint)) (log w) ->
  Forall (requests_to (url_of endpoint))
    (log (snd (makeVeoRequest env endpoint GET w))).
Proof.
  intros Hw.
  destruct (configured env) eqn:Hkey.
  - rewrite makeVeoRequest_configured by exact Hkey.
    unfold axios.
    destruct (http env (S (sent w)) (url_of endpoint)); cbn;
      (apply Forall_snoc; [exact Hw|split; reflexivity]).
  - rewrite makeVeoRequest_unconfigured by exact Hkey. exact Hw.
Qed.

Lemma poll_loop_log (params : WaitForVideoInput) (endpoint : string)
    (startTime timeoutMs pollIntervalMs : Z) (fuel c : nat) (w : World) :
  Forall (requests_to (url_of endpoint)) (log w) ->
  Forall (requests_to (url_of endpoint))
    (log (snd (poll_loop env params endpoint startTime timeoutMs pollIntervalMs
                 fuel c w))).
Proof.
  induction fuel as [|fuel IH] in c, w |- *; intros Hw; [exact Hw|].
  cbn [poll_loop]. unfold bind at 1.
  pose proof (makeVeoRequest_log endpoint w Hw) as Hreq.
  destruct (makeVeoRequest env endpoint GET w) as [[operation|e|] w1];
    cbn [snd] in *; try exact Hreq.
  destruct (done_truthy operation || error_truthy operation); [exact Hreq|].
  unfold bind at 1, date_now at 1.
  destruct (timeoutMs <=? now w1 - startTime); [exact Hreq|].
  unfold bind at 1.
  change (sleep env pollIntervalMs w1) with
    (Ret tt, snd (sleep env pollIntervalMs w1)).
  apply IH. cbn. apply Forall_snoc; [exact Hreq|exact I].
Qed.

(** The final world of the wait handler is the final world of its loop. *)
Lemma wait_world (fuel : nat) (params : WaitForVideoInput) (w : World) :
  snd (veo_wait_for_video env fuel params w) =
  snd (poll_loop env params (wait_operationPath (operation_name params))
         (now w) (timeout_seconds params * 1000)
         (poll_interval_seconds params * 1000) fuel 0 w).
Proof.
  unfold veo_wait_for_video, try_catch, bind, date_now, ret.
  destruct (poll_loop env params _ (now w) _ _ fuel 0 w)
    as [[[operation pollCount|result]|e|] w']; reflexivity.
Qed.

Lemma status_world (params : GetOperationStatusInput) (w : World) :
  snd (veo_get_operation_status env params w) =
  snd (makeVeoRequest env (status_operationPath (gs_operation_name params)) GET w).
Proof.
  unfold veo_get_operation_status, try_catch, bind, ret.
  destruct (makeVeoRequest env _ GET w) as [[operation|e|] w']; reflexivity.
Qed.

End RequestsTo.

(** C4.  The status handler and the wait handler compute the same lookup
    key from an operation name: the two normalizations are equal on every
    string, and every request either handler sends goes to the URL of the
    key the other one computes. *)
Theorem status_and_wait_use_same_key
    (env : Env) (id : string) (format : ResponseFormat) (p t t0 : Z) (fuel : nat) :
  status_operationPath id = wait_operationPath id /\
  Forall (requests_to (url_of (wait_operationPath id)))
    (log (snd (veo_get_operation_status env
                 (mkGetOperationStatusInput id format) (fresh t0)))) /\
  Forall (requests_to (url_of (status_operationPath id)))
    (log (snd (veo_wait_for_video env fuel
                 (mkWaitForVideoInput id p t format) (fresh t0)))).
Proof.
  split; [reflexivity|]. split.
  - rewrite status_world. apply makeVeoRequest_log. constructor.
  - rewrite wait_world. apply poll_loop_log. constructor.
Qed.

(** ** C5: classification *)

(** C5, as the code has it.  Every snapshot is given exactly one of the
    three statuses: in_progress iff [done] is not true and there is no
    error, completed iff [done = true] and there is no error (the artifact
    list is not consulted), failed iff an error is present, whatever the
    done flag; a snapshot with both [done = true] and an error is failed.
    The status handler and both branches of [formatOperationStatus]
    agree. *)
Theorem classification_partition (operation : OperationResponse) :
  (status_of operation = "in_progress" \/
   status_of operation = "completed" \/
   status_of operation = "failed") /\
  (status_of operation = "in_progress" <->
     done operation <> Some true /\ error operation = None) /\
  (status_of operation = "completed" <->
     done operation = Some true /\ error operation = None) /\
  (status_of operation = "failed" <-> error operation <> None) /\
  (done operation = Some true -> error operation <> None ->
     status_of operation = "failed") /\
  get (status_output operation) "status" = Some (JStr (status_of operation)) /\
  get (formatOperationStatus_json operation) "status"
    = Some (JStr (status_of operation)) /\
  (status_label operation = "❌ Failed" <-> status_of operation = "failed") /\
  (status_label operation = "✅ Completed" <-> status_of operation = "completed") /\
  (status_label operation = "⏳ In Progress" <-> status_of operation = "in_progress").
Proof.
  unfold status_of, status_label, status_output, formatOperationStatus_json,
    error_truthy, done_truthy.
  destruct operation as [nm [[|]|] [e|] r]; cbn;
    repeat split; intros; try discriminate; try congruence; auto;
    try (match goal with H : _ /\ _ |- _ => destruct H end; congruence).
Qed.

(** The theorem at [{ done: true, error: ... }]. *)
Lemma classification_partition_witness :
  status_of done_with_error = "failed".
Proof.
  destruct (classification_partition done_with_error)
    as (_ & _ & _ & _ & Hboth & _).
  apply Hboth; [reflexivity|discriminate].
Defined.

(** C5 as stated fails on [{ done: true }] with no [response]: the
    snapshot is classified completed although no artifact list is
    present. *)
Lemma completed_without_artifact_list :
  status_of done_without_response = "completed" /\
  error done_without_response = None /\
  samples_of done_without_response = None /\
  response done_without_response = None.
Proof. repeat split. Qed.

Section ReturnedOutputs.

Variable env : Env.

(** Every structured output of the status handler is a [status_output]. *)
Lemma status_returned_output (sp : GetOperationStatusInput) (w : World) (out : Obj) :
  returned_output (veo_get_operation_status env sp w) = Some out ->
  exists operation, out = status_output operation.
Proof.
  unfold returned_output, veo_get_operation_status, try_catch, bind, ret.
  destruct (makeVeoRequest env _ GET w) as [[operation|e|] w']; cbn;
    try discriminate.
  intros H. inversion H. exists operation. reflexivity.
Qed.

(** Every structured output of the wait handler is the output built after
    a [break], on a terminal snapshot, or the timeout output, on a pending
    one. *)
Lemma wait_returned_output (fuel : nat) (params : WaitForVideoInput)
    (w : World) (out : Obj) :
  returned_output (veo_wait_for_video env fuel params w) = Some out ->
  (exists operation elapsed n,
      out = final_output operation elapsed n /\ terminal operation = true) \/
  (exists operation elapsed n,
      out = timeout_output operation params elapsed n /\
      terminal operation = false).
Proof.
  unfold returned_output. rewrite wait_unfold_at.
  destruct (poll_loop env params _ (now w) _ _ fuel 0 w)
    as [[[operation pollCount|result]|e|] w'] eqn:Hloop; cbn;
    try discriminate; apply poll_loop_returns in Hloop.
  - intros H. inversion H. left. eauto.
  - destruct Hloop as (operation & elapsed & n & -> & Hterm & _).
    intros H. right. exists operation, elapsed, n. split; [|exact Hterm].
    unfold timeout_result in H.
    destruct (response_format params); cbn in H; congruence.
Qed.

(** The handlers catch whatever is thrown. *)
Lemma wait_never_throws (fuel : nat) (params : WaitForVideoInput)
    (w : World) (e : Thrown) :
  fst (veo_wait_for_video env fuel params w) <> Raise e.
Proof.
  rewrite wait_unfold_at.
  destruct (poll_loop env params _ (now w) _ _ fuel 0 w)
    as [[[operation pollCount|result]|e'|] w']; cbn; discriminate.
Qed.

End ReturnedOutputs.

(** ** C6: the artifact list *)

Section FetchedSnapshot.

Variable env : Env.

(** The structured output of the status handler is built from the
    snapshot its one request returned. *)
Lemma status_returned_snapshot (sp : GetOperationStatusInput) (w : World) (out : Obj) :
  returned_output (veo_get_operation_status env sp w) = Some out ->
  exists operation,
    http env (S (sent w)) (url_of (status_operationPath (gs_operation_name sp)))
      = Data operation /\
    out = status_output operation.
Proof.
  unfold returned_output, veo_get_operation_status, try_catch, bind, ret.
  destruct (configured env) eqn:Hkey.
  - rewrite makeVeoRequest_configured by exact Hkey. unfold axios.
    destruct (http env (S (sent w)) _) as [operation|e]; cbn; [|discriminate].
    intros H. inversion H. exists operation. split; reflexivity.
  - rewrite makeVeoRequest_unconfigured by exact Hkey. cbn. discriminate.
Qed.

(** The status handler returns that output whenever its request is
    answered. *)
Lemma status_returns_snapshot (sp : GetOperationStatusInput) (w : World)
    (operation : OperationResponse) :
  configured env = true ->
  http env (S (sent w)) (url_of (status_operationPath (gs_operation_name sp)))
    = Data operation ->
  returned_output (veo_get_operation_status env sp w)
    = Some (status_output operation).
Proof.
  intros Hkey Hhttp. unfold returned_output.
  rewrite (status_run env sp w Hkey), Hhttp. reflexivity.
Qed.

(** The value with which the loop is left is built from the snapshot
    its last request returned. *)
Lemma poll_loop_last_snapshot (params : WaitForVideoInput) (endpoint : string)
    (startTime timeoutMs pollIntervalMs : Z) (fuel c : nat) (w w' : World)
    (exit : LoopExit) :
  poll_loop env params endpoint startTime timeoutMs pollIntervalMs fuel c w
    = (Ret exit, w') ->
  exists operation,
    http env (sent w') (url_of endpoint) = Data operation /\
    (sent w < sent w')%nat /\
    match exit with
    | Break o _ => o = operation
    | Return result =>
        exists elapsed n, result = timeout_result operation params elapsed n
    end.
Proof.
  induction fuel as [|fuel IH] in c, w |- *; [discriminate|].
  cbn [poll_loop]. unfold bind at 1.
  destruct (configured env) eqn:Hkey.
  - rewrite makeVeoRequest_configured by exact Hkey.
    unfold axios.
    destruct (http env (S (sent w)) (url_of endpoint)) as [operation|e] eqn:Hhttp;
      [|discriminate].
    destruct (done_truthy operation || error_truthy operation).
    { unfold ret. intros H. inversion H; subst. exists operation.
      cbn [sent]. split; [exact Hhttp|]. split; [lia|reflexivity]. }
    unfold bind at 1, date_now at 1. cbn [now].
    destruct (timeoutMs <=? _).
    { unfold ret. intros H. inversion H; subst. exists operation.
      cbn [sent]. split; [exact Hhttp|]. split; [lia|]. eauto. }
    unfold bind at 1, sleep at 1. cbn [now sent timers log].
    intros H. apply IH in H. cbn [sent] in H.
    destruct H as (o & Ho & Hlt & Hexit).
    exists o. split; [exact Ho|]. split; [lia|exact Hexit].
  - rewrite makeVeoRequest_unconfigured by exact Hkey. discriminate.
Qed.

(** Every structured output of the wait handler is built from the
    snapshot the last request of the call returned: the output built after
    the loop when that snapshot is terminal, the timeout output when it is
    not. *)
Lemma wait_returned_snapshot (fuel : nat) (params : WaitForVideoInput)
    (w : World) (out : Obj) :
  returned_output (veo_wait_for_video env fuel params w) = Some out ->
  exists operation,
    http env (sent (snd (veo_wait_for_video env fuel params w)))
      (url_of (wait_operationPath (operation_name params))) = Data operation /\
    (sent w < sent (snd (veo_wait_for_video env fuel params w)))%nat /\
    ((exists elapsed n, out = final_output operation elapsed n) \/
     (exists elapsed n, out = timeout_output operation params elapsed n)).
Proof.
  unfold returned_output. rewrite wait_unfold_at.
  destruct (poll_loop env params _ (now w) _ _ fuel 0 w)
    as [[[operation pollCount|result]|e|] w'] eqn:Hloop; cbn [fst snd];
    try discriminate; apply poll_loop_last_snapshot in Hloop;
    destruct Hloop as (o & Ho & Hlt & Hexit).
  - subst o. cbn [structuredContent]. intros H. inversion H.
    exists operation. split; [exact Ho|]. split; [exact Hlt|]. left. eauto.
  - destruct Hexit as (elapsed & n & ->).
    intros H. exists o. split; [exact Ho|]. split; [exact Hlt|]. right.
    exists elapsed, n. unfold timeout_result in H.
    destruct (response_format params); cbn in H; congruence.
Qed.

End FetchedSnapshot.

(** C6, as the code has it.  The [video_urls] computed from a snapshot is
    always an array: the video URIs of the generated samples when the
    snapshot has them, the empty array when the response, the
    generateVideoResponse or the sample list is absent.  The structured
    output of a status fetch carries it for the snapshot the fetch
    returned, and so does every structured output of wait other than the
    timeout output, for the snapshot the last fetch returned; both
    handlers do return these outputs when the service answers.  The
    timeout output of wait has no [video_urls] at all. *)
Theorem video_urls_list_unless_timeout (env : Env) :
  (forall operation,
     (exists uris, video_urls_of operation = JArr (map JStr uris)) /\
     (forall samples, samples_of operation = Some samples ->
        video_urls_of operation = JArr (map JStr (map video_uri samples))) /\
     (response operation = None -> video_urls_of operation = JArr []) /\
     (forall r, response operation = Some r -> generateVideoResponse r = None ->
        video_urls_of operation = JArr []) /\
     (forall r g, response operation = Some r -> generateVideoResponse r = Some g ->
        generatedSamples g = None -> video_urls_of operation = JArr []) /\
     (forall r g samples, response operation = Some r ->
        generateVideoResponse r = Some g -> generatedSamples g = Some samples ->
        video_urls_of operation = JArr (map JStr (map video_uri samples)))) /\
  (forall sp w out,
     returned_output (veo_get_operation_status env sp w) = Some out ->
     exists operation,
       http env (S (sent w)) (url_of (status_operationPath (gs_operation_name sp)))
         = Data operation /\
       get out "video_urls" = Some (video_urls_of operation)) /\
  (forall sp w operation,
     configured env = true ->
     http env (S (sent w)) (url_of (status_operationPath (gs_operation_name sp)))
       = Data operation ->
     returned_field (veo_get_operation_status env sp w) "video_urls"
       = Some (video_urls_of operation)) /\
  (forall fuel params w out,
     returned_output (veo_wait_for_video env fuel params w) = Some out ->
     get out "status" <> Some (JStr "timeout") ->
     exists operation,
       http env (sent (snd (veo_wait_for_video env fuel params w)))
         (url_of (wait_operationPath (operation_name params))) = Data operation /\
       (sent w < sent (snd (veo_wait_for_video env fuel params w)))%nat /\
       get out "video_urls" = Some (video_urls_of operation)) /\
  (forall params t0 fuel k operation,
     configured env = true ->
     (forall j, (j < k)%nat ->
        quiet env (wait_operationPath (operation_name params))
          (poll_interval_seconds params * 1000) (timeout_seconds params * 1000)
          t0 j = true) ->
     http env (S k) (url_of (wait_operationPath (operation_name params)))
       = Data operation ->
     terminal operation = true ->
     (k < fuel)%nat ->
     returned_field (veo_wait_for_video env fuel params (fresh t0)) "video_urls"
       = Some (video_urls_of operation)) /\
  (forall fuel params w out,
     returned_output (veo_wait_for_video env fuel params w) = Some out ->
     get out "status" = Some (JStr "timeout") ->
     get out "video_urls" = None).
Proof.
  split; [|split; [|split; [|split; [|split]]]].
  - intros operation.
    unfold video_urls_of, mapped_uris, samples_of, opt_chain, uris_json.
    split.
    { destruct (response operation) as [[[[[samples|]]|]]|]; cbn;
        [exists (map video_uri samples)|exists []|exists []|exists []]; reflexivity. }
    split. { intros samples ->. reflexivity. }
    split. { intros ->. reflexivity. }
    split. { intros r -> ->. reflexivity. }
    split. { intros r g -> -> ->. reflexivity. }
    intros r g samples -> -> ->. reflexivity.
  - intros sp w out Hout.
    destruct (status_returned_snapshot env sp w out Hout) as (operation & Hhttp & ->).
    exists operation. split; [exact Hhttp|reflexivity].
  - intros sp w operation Hkey Hhttp. unfold returned_field.
    rewrite (status_returns_snapshot env sp w operation Hkey Hhttp). reflexivity.
  - intros fuel params w out Hout Hstatus.
    destruct (wait_returned_snapshot env fuel params w out Hout)
      as (operation & Hhttp & Hlt & [(elapsed & n & ->)|(elapsed & n & ->)]).
    + exists operation. split; [exact Hhttp|]. split; [exact Hlt|reflexivity].
    + exfalso. apply Hstatus. reflexivity.
  - intros params t0 fuel k operation Hkey Hquiet Hhttp Hterm Hfuel.
    unfold returned_field, returned_output.
    rewrite (wait_run_break env params t0 Hkey k fuel Hquiet Hfuel operation
               Hhttp Hterm).
    reflexivity.
  - intros fuel params w out Hout Hstatus.
    destruct (wait_returned_snapshot env fuel params w out Hout)
      as (operation & _ & _ & [(elapsed & n & ->)|(elapsed & n & ->)]).
    + cbn in Hstatus. destruct (error_truthy operation); discriminate.
    + reflexivity.
Qed.

(** The theorem at a status fetch and at a wait call whose first fetch
    returns a snapshot with one generated sample. *)
Lemma video_urls_list_unless_timeout_witness :
  returned_field
    (veo_get_operation_status (stub_env (fun _ => Data finished) 0)
       (mkGetOperationStatusInput "abc123" JSON) (fresh 0)) "video_urls"
    = Some (video_urls_of finished) /\
  returned_field
    (veo_wait_for_video (stub_env (fun _ => Data finished) 0) 1
       (mkWaitForVideoInput "abc123" 5 30 JSON) (fresh 0)) "video_urls"
    = Some (video_urls_of finished) /\
  video_urls_of finished = JArr (map JStr (map video_uri [mkSample "uri1"])).
Proof.
  destruct (video_urls_list_unless_timeout (stub_env (fun _ => Data finished) 0))
    as (Hlist & _ & Hstatus & _ & Hwait & _).
  split; [|split].
  - apply Hstatus; reflexivity.
  - apply (Hwait (mkWaitForVideoInput "abc123" 5 30 JSON) 0 1%nat 0%nat finished).
    + reflexivity.
    + intros j Hj. inversion Hj.
    + reflexivity.
    + reflexivity.
    + apply le_n.
  - destruct (Hlist finished) as (_ & Hsamples & _).
    apply Hsamples. reflexivity.
Defined.

(** C6 as stated fails on the timeout outcome of wait: its structured
    output has no [video_urls], neither the list of URIs when the pending
    snapshot already lists a sample, which a status fetch of the same
    snapshot reports, nor the empty list when the response is absent. *)
Lemma timeout_output_has_no_video_urls :
  (returned_field
     (veo_wait_for_video (stub_env (fun _ => Data pending_with_sample) 0) 200
        (mkWaitForVideoInput "abc123" 5 30 JSON) (fresh 0)) "status"
     = Some (JStr "timeout") /\
   returned_field
     (veo_wait_for_video (stub_env (fun _ => Data pending_with_sample) 0) 200
        (mkWaitForVideoInput "abc123" 5 30 JSON) (fresh 0)) "video_urls"
     = None /\
   returned_field
     (veo_get_operation_status (stub_env (fun _ => Data pending_with_sample) 0)
        (mkGetOperationStatusInput "abc123" JSON) (fresh 0)) "video_urls"
     = Some (JArr [JStr "uri1"])) /\
  (returned_field
     (veo_wait_for_video (stub_env (fun _ => Data pending) 0) 200
        (mkWaitForVideoInput "abc123" 5 30 JSON) (fresh 0)) "status"
     = Some (JStr "timeout") /\
   returned_field
     (veo_wait_for_video (stub_env (fun _ => Data pending) 0) 200
        (mkWaitForVideoInput "abc123" 5 30 JSON) (fresh 0)) "video_urls"
     = None).
Proof. repeat split; vm_compute; reflexivity. Qed.

(** ** C10: the done field of a terminal wait outcome *)

(** C10.  Whenever the wait handler returns a structured output other
    than the timeout output, the loop was left by [break] on a snapshot
    with [done = true] or with an error, and the output reports
    [done = true].  This is so even when the snapshot carried an error
    and no done flag: on [{ error: { code: 7, message: "denied" } }] the
    output says [done: true] while the snapshot's own [done ?? false] is
    [false]. *)
Theorem terminal_wait_reports_done :
  (forall env fuel params w out,
     returned_output (veo_wait_for_video env fuel params w) = Some out ->
     get out "status" <> Some (JStr "timeout") ->
     get out "done" = Some (JBool true) /\
     exists operation elapsed n,
       out = final_output operation elapsed n /\
       (done_truthy operation = true \/ error operation <> None) /\
       get out "status"
         = Some (JStr (if error_truthy operation then "failed" else "completed"))) /\
  (returned_field
     (veo_wait_for_video (stub_env (fun _ => Data denied) 0) 1
        (mkWaitForVideoInput "abc123" 10 300 JSON) (fresh 0)) "done"
     = Some (JBool true) /\
   returned_field
     (veo_wait_for_video (stub_env (fun _ => Data denied) 0) 1
        (mkWaitForVideoInput "abc123" 10 300 JSON) (fresh 0)) "status"
     = Some (JStr "failed") /\
   done denied = None /\
   get (status_output denied) "done" = Some (JBool false)).
Proof.
  split; [|repeat split; vm_compute; reflexivity].
  intros env fuel params w out Hout Hstatus.
  destruct (wait_returned_output env fuel params w out Hout)
    as [(o & elapsed & n & -> & Hterm)|(o & elapsed & n & -> & _)].
  - split; [reflexivity|].
    exists o, elapsed, n. split; [reflexivity|]. split; [|reflexivity].
    unfold terminal, error_truthy in Hterm.
    apply orb_true_iff in Hterm. destruct Hterm as [Hd|He]; [left; exact Hd|].
    right. destruct (error o); [discriminate|discriminate].
  - exfalso. apply Hstatus. reflexivity.
Qed.

(** The theorem at a wait call whose first fetch returns an error-only
    snapshot. *)
Lemma terminal_wait_reports_done_witness :
  get (final_output denied 0 1) "done" = Some (JBool true).
Proof.
  destruct terminal_wait_reports_done as [Hall _].
  apply (Hall (stub_env (fun _ => Data denied) 0) 1%nat
           (mkWaitForVideoInput "abc123" 10 300 JSON) (fresh 0)).
  - reflexivity.
  - discriminate.
Defined.

(** ** C7: a fetch that throws *)

Lemma prefix_append (s r : string) : String.prefix s (s ++ r) = true.
Proof.
  induction s as [|a s IH]; cbn.
  - destruct r; reflexivity.
  - destruct (ascii_dec a a) as [_|Hne]; [exact IH|exfalso; apply Hne; reflexivity].
Qed.

(** Every message [handleApiError] builds starts with "Error: ". *)
Lemma handleApiError_prefix (e : Thrown) :
  String.prefix "Error: " (handleApiError e) = true.
Proof.
  destruct e as [amsg [c|] [r|]|m|s]; cbn [handleApiError];
    repeat match goal with
           | |- context [if ?b then _ else _] => destruct b
           end;
    apply (prefix_append "Error: ").
Qed.

Section Failure.

Variable env : Env.
Variable params : WaitForVideoInput.
Variable endpoint : string.
Variables startTime timeoutMs pollIntervalMs : Z.

(** A request that fails is the last thing the loop does, and the loop
    ends by throwing what the request threw. *)
Lemma poll_loop_failure (fuel c : nat) (w w' : World) (res : Outcome LoopExit) :
  poll_loop env params endpoint startTime timeoutMs pollIntervalMs fuel c w
    = (res, w') ->
  (sent w <= sent w')%nat /\
  forall j e,
    (sent w < j <= sent w')%nat ->
    http env j (url_of endpoint) = Fails e ->
    j = sent w' /\ res = Raise e /\
    exists l b, log w' = (l ++ [Request GET (url_of endpoint) b (now w')])%list.
Proof.
  induction fuel as [|fuel IH] in c, w |- *.
  - cbn. intros H. inversion H; subst. split; [lia|]. intros j e Hj. lia.
  - cbn [poll_loop]. unfold bind at 1.
    destruct (configured env) eqn:Hkey.
    + rewrite makeVeoRequest_configured by exact Hkey.
      unfold axios.
      destruct (http env (S (sent w)) (url_of endpoint)) as [operation|e0] eqn:Hhttp.
      * destruct (done_truthy operation || error_truthy operation).
        { unfold ret. intros H. inversion H; subst. cbn [sent now log]. split; [lia|].
          intros j e Hj Hf. assert (j = S (sent w)) by lia. congruence. }
        unfold bind at 1, date_now at 1. cbn [now].
        destruct (timeoutMs <=? _).
        { unfold ret. intros H. inversion H; subst. cbn [sent now log]. split; [lia|].
          intros j e Hj Hf. assert (j = S (sent w)) by lia. congruence. }
        unfold bind at 1, sleep at 1. cbn [now sent timers log].
        intros H. apply IH in H. cbn [sent] in H. destruct H as [Hle Hall].
        split; [lia|].
        intros j e Hj Hf.
        destruct (Nat.eq_dec j (S (sent w))) as [->|Hne]; [congruence|].
        apply Hall; [lia|exact Hf].
      * intros H. inversion H; subst. cbn [sent now log]. split; [lia|].
        intros j e Hj Hf. assert (j = S (sent w)) by lia. subst j.
        rewrite Hhttp in Hf. inversion Hf; subst.
        split; [reflexivity|]. split; [reflexivity|].
        exists (log w), (now w). reflexivity.
    + rewrite makeVeoRequest_unconfigured by exact Hkey.
      intros H. inversion H; subst. split; [lia|]. intros j e Hj. lia.
Qed.

End Failure.

(** C7.  If a status fetch made during a wait call throws, the call ends
    there: that request is the last one made (no retry, no further
    polling), nothing is logged after it, and the handler returns the
    error result built by [handleApiError] instead of throwing. *)
Theorem failed_fetch_ends_wait
    (env : Env) (fuel : nat) (params : WaitForVideoInput) (w : World)
    (j : nat) (e : Thrown) :
  (sent w < j <= sent (snd (veo_wait_for_video env fuel params w)))%nat ->
  http env j (url_of (wait_operationPath (operation_name params))) = Fails e ->
  fst (veo_wait_for_video env fuel params w) = Ret (error_result e) /\
  isError (error_result e) = true /\
  structuredContent (error_result e) = None /\
  content (error_result e) = Plain (handleApiError e) /\
  String.prefix "Error: " (handleApiError e) = true /\
  j = sent (snd (veo_wait_for_video env fuel params w)) /\
  (exists l b,
     log (snd (veo_wait_for_video env fuel params w))
       = (l ++ [Request GET (url_of (wait_operationPath (operation_name params))) b
                 (now (snd (veo_wait_for_video env fuel params w)))])%list) /\
  (forall e', fst (veo_wait_for_video env fuel params w) <> Raise e').
Proof.
  intros Hj Hf.
  pose proof (wait_never_throws env fuel params w) as Hcatch.
  rewrite wait_world in Hj |- *.
  rewrite wait_unfold_at in Hcatch |- *.
  destruct (poll_loop env params (wait_operationPath (operation_name params))
              (now w) (timeout_seconds params * 1000)
              (poll_interval_seconds params * 1000) fuel 0 w)
    as [res w'] eqn:Hloop.
  apply poll_loop_failure in Hloop. destruct Hloop as [_ Hall].
  cbn [snd] in Hj |- *.
  destruct (Hall j e Hj Hf) as (Hlast & -> & Hlog).
  split; [reflexivity|]. split; [reflexivity|]. split; [reflexivity|].
  split; [reflexivity|]. split; [apply handleApiError_prefix|].
  split; [exact Hlast|]. split; [exact Hlog|].
  intros e'. cbn. discriminate.
Qed.

(** The theorem at a stub whose second answer is a network failure. *)
Lemma failed_fetch_ends_wait_witness :
  fst (veo_wait_for_video
         (stub_env (fun j => if (j <? 2)%nat then Data pending
                             else Fails (AxiosError "getaddrinfo ENOTFOUND"
                                           (Some "ENOTFOUND") None)) 0)
         10 (mkWaitForVideoInput "abc123" 5 30 JSON) (fresh 0))
    = Ret (error_result (AxiosError "getaddrinfo ENOTFOUND" (Some "ENOTFOUND") None)) /\
  2%nat = sent (snd (veo_wait_for_video
         (stub_env (fun j => if (j <? 2)%nat then Data pending
                             else Fails (AxiosError "getaddrinfo ENOTFOUND"
                                           (Some "ENOTFOUND") None)) 0)
         10 (mkWaitForVideoInput "abc123" 5 30 JSON) (fresh 0))).
Proof.
  pose proof (failed_fetch_ends_wait
    (stub_env (fun j => if (j <? 2)%nat then Data pending
                        else Fails (AxiosError "getaddrinfo ENOTFOUND"
                                      (Some "ENOTFOUND") None)) 0)
    10 (mkWaitForVideoInput "abc123" 5 30 JSON) (fresh 0) 2
    (AxiosError "getaddrinfo ENOTFOUND" (Some "ENOTFOUND") None)) as H.
  destruct H as (Hres & _ & _ & _ & _ & Hlast & _).
  - vm_compute. split; repeat constructor.
  - reflexivity.
  - split; [exact Hres|exact Hlast].
Defined.

(** ** C8: validation of the wait arguments *)

Lemma z_int_range_rejects (lo hi dflt : Z) (path : string) (v : JValue) :
  int_in_range lo hi v = false ->
  exists issues, z_int_range lo hi dflt path (Some v) = inl issues.
Proof.
  destruct v as [|b|q|s|items|fields]; cbn [int_in_range z_int_range];
    try (intros _; eexists; reflexivity).
  intros H.
  destruct (is_integer q), (Qle_bool (inject_Z lo) q), (Qle_bool q (inject_Z hi));
    try discriminate; cbn; eexists; reflexivity.
Qed.

Lemma to_integer_bounds (lo hi : Z) (q : Q) :
  is_integer q = true ->
  Qle_bool (inject_Z lo) q = true ->
  Qle_bool q (inject_Z hi) = true ->
  lo <= to_integer q <= hi.
Proof.
  unfold is_integer, to_integer. intros Hint Hlo Hhi.
  apply Z.eqb_eq in Hint.
  apply Qle_bool_iff in Hlo. apply Qle_bool_iff in Hhi.
  unfold Qle, inject_Z in Hlo, Hhi. cbn [Qnum Qden] in Hlo, Hhi.
  destruct q as [n d]. cbn [Qnum Qden] in *.
  pose proof (Z.div_mod n (Zpos d) ltac:(lia)) as Hdm.
  rewrite Hint in Hdm.
  assert (0 < Zpos d) by lia.
  nia.
Qed.

Lemma z_int_range_accepts (lo hi dflt : Z) (path : string) (v : option JValue) :
  lo <= dflt <= hi ->
  absent_or_in_range lo hi v ->
  exists n, z_int_range lo hi dflt path v = inr n /\ lo <= n <= hi.
Proof.
  intros Hd [ Hv | [x [Hv Hx] ] ]; subst v;
    [exists dflt; split; [reflexivity|exact Hd]|].
  destruct x as [|b|q|s|items|fields]; try discriminate.
  cbn [int_in_range] in Hx.
  apply andb_true_iff in Hx. destruct Hx as [Hx Hhi].
  apply andb_true_iff in Hx. destruct Hx as [Hint Hlo].
  exists (to_integer q). split.
  - cbn [z_int_range]. rewrite Hint, Hlo, Hhi. reflexivity.
  - apply to_integer_bounds; assumption.
Qed.

Lemma strict_accepts (shape : list string) (args : Obj) :
  (forall k, In k (map fst args) -> In k shape) ->
  strict shape args = [].
Proof.
  intros Hkeys. unfold strict.
  replace (filter (fun k => negb (known_key shape k)) (map fst args))
    with (@nil string); [reflexivity|].
  symmetry. induction (map fst args) as [|k ks IH]; [reflexivity|].
  cbn [filter].
  assert (Hk : known_key shape k = true).
  { unfold known_key. apply existsb_exists. exists k.
    split; [apply Hkeys; left; reflexivity|apply String.eqb_refl]. }
  rewrite Hk. cbn. apply IH. intros k' Hin. apply Hkeys. right. exact Hin.
Qed.

Lemma integer_Qeq (q : Q) :
  is_integer q = true -> q == inject_Z (to_integer q).
Proof.
  unfold is_integer, to_integer. intros Hint. apply Z.eqb_eq in Hint.
  destruct q as [n d]. cbn [Qnum Qden] in *.
  unfold Qeq, inject_Z. cbn [Qnum Qden].
  pose proof (Z.div_mod n (Zpos d) ltac:(lia)) as Hdm.
  rewrite Hint in Hdm. lia.
Qed.

Lemma Qeq_integer (q : Q) (n : Z) :
  q == inject_Z n -> is_integer q = true /\ to_integer q = n.
Proof.
  unfold is_integer, to_integer, Qeq, inject_Z.
  destruct q as [a d]. cbn [Qnum Qden]. intros H.
  assert (Ha : a = n * Zpos d) by lia. subst a. split.
  - apply Z.eqb_eq. apply Z.mod_mul. lia.
  - apply Z.div_mul. lia.
Qed.

(** The number schema returns the supplied integer, or the default. *)
Lemma z_int_range_pins (lo hi dflt : Z) (path : string) (v : option JValue) (n : Z) :
  supplied_int dflt lo hi v n -> z_int_range lo hi dflt path v = inr n.
Proof.
  intros [ [Hv Hn] | (q & Hv & Hq & Hb) ]; subst v; [subst n; reflexivity|].
  destruct (Qeq_integer q n Hq) as [Hint Hto].
  assert (Hlo : Qle_bool (inject_Z lo) q = true).
  { apply Qle_bool_iff. rewrite Hq. rewrite <- Zle_Qle. lia. }
  assert (Hhi : Qle_bool q (inject_Z hi) = true).
  { apply Qle_bool_iff. rewrite Hq. rewrite <- Zle_Qle. lia. }
  cbn [z_int_range]. rewrite Hint, Hlo, Hhi, Hto. reflexivity.
Qed.

(** What the number schema returns is the supplied integer, or the
    default. *)
Lemma z_int_range_sound (lo hi dflt : Z) (path : string) (v : option JValue) (n : Z) :
  z_int_range lo hi dflt path v = inr n -> supplied_int dflt lo hi v n.
Proof.
  destruct v as [[|b|q|s|items|fields]|]; cbn [z_int_range]; try discriminate.
  - destruct (is_integer q) eqn:Hint; [|discriminate].
    destruct (Qle_bool (inject_Z lo) q) eqn:Hlo; [|discriminate].
    destruct (Qle_bool q (inject_Z hi)) eqn:Hhi; [|discriminate].
    cbn. intros H. inversion H; subst n. right. exists q.
    split; [reflexivity|]. split; [apply integer_Qeq; exact Hint|].
    apply to_integer_bounds; assumption.
  - intros H. inversion H. left. split; reflexivity.
Qed.

Lemma z_response_format_pins (path : string) (v : option JValue) (f : ResponseFormat) :
  supplied_format v f -> z_response_format path v = inr f.
Proof. intros [ [Hv Hf] | [ [Hv Hf] | [Hv Hf] ] ]; subst v f; reflexivity. Qed.

Lemma z_response_format_sound (path : string) (v : option JValue) (f : ResponseFormat) :
  z_response_format path v = inr f -> supplied_format v f.
Proof.
  destruct v as [[|b|q|s|items|fields]|]; cbn [z_response_format];
    try discriminate.
  - destruct (String.eqb_spec s "markdown") as [Hs|_].
    + intros H. inversion H. subst. right. left. split; reflexivity.
    + destruct (String.eqb_spec s "json") as [Hs|_]; [|discriminate].
      intros H. inversion H. subst. right. right. split; reflexivity.
  - intros H. inversion H. left. split; reflexivity.
Qed.

Lemma z_string_min1_sound (path : string) (v : option JValue) (id : string) :
  z_string_min1 path v = inr id -> v = Some (JStr id) /\ id <> "".
Proof.
  destruct v as [[|b|q|s|items|fields]|]; cbn [z_string_min1]; try discriminate.
  destruct s as [|c s]; cbn; [discriminate|].
  intros H. inversion H. split; [reflexivity|discriminate].
Qed.

(** C8.  A wait input whose [poll_interval_seconds] is not an integer
    within [[5, 60]], or whose [timeout_seconds] is not an integer within
    [[30, 600]], is rejected, and a rejected input makes no remote call:
    the world is left as it was.  Numbers within the bounds pass their
    checks, an absent number standing for its default, 10 or 300; every
    input that validation accepts reaches the handler with exactly the
    numbers, the operation name and the format it supplied; and an input
    with numbers within the bounds is accepted when the rest of it is in
    order (a non-empty [operation_name], a valid or absent
    [response_format], no other key). *)
Theorem wait_input_validation (env : Env) (fuel : nat) (args : Obj) (w : World) :
  (forall v, get args "poll_interval_seconds" = Some v ->
     int_in_range 5 60 v = false ->
     exists issues, WaitForVideoInputSchema args = inl issues) /\
  (forall v, get args "timeout_seconds" = Some v ->
     int_in_range 30 600 v = false ->
     exists issues, WaitForVideoInputSchema args = inl issues) /\
  (forall issues, WaitForVideoInputSchema args = inl issues ->
     call_veo_wait_for_video env fuel args w = (Ret (InvalidParams issues), w)) /\
  (forall p, supplied_int 10 5 60 (get args "poll_interval_seconds") p ->
     z_int_range 5 60 10 "poll_interval_seconds"
       (get args "poll_interval_seconds") = inr p) /\
  (forall t, supplied_int 300 30 600 (get args "timeout_seconds") t ->
     z_int_range 30 600 300 "timeout_seconds" (get args "timeout_seconds") = inr t) /\
  (forall params, WaitForVideoInputSchema args = inr params ->
     get args "operation_name" = Some (JStr (operation_name params)) /\
     supplied_int 10 5 60 (get args "poll_interval_seconds")
       (poll_interval_seconds params) /\
     supplied_int 300 30 600 (get args "timeout_seconds") (timeout_seconds params) /\
     supplied_format (get args "response_format") (response_format params) /\
     call_veo_wait_for_video env fuel args w =
       bind (veo_wait_for_video env fuel params) (fun r => ret (Handled r)) w) /\
  (forall id p t format,
     get args "operation_name" = Some (JStr id) -> id <> "" ->
     supplied_int 10 5 60 (get args "poll_interval_seconds") p ->
     supplied_int 300 30 600 (get args "timeout_seconds") t ->
     supplied_format (get args "response_format") format ->
     (forall k, In k (map fst args) -> In k WaitForVideoKeys) ->
     WaitForVideoInputSchema args = inr (mkWaitForVideoInput id p t format) /\
     call_veo_wait_for_video env fuel args w =
       bind (veo_wait_for_video env fuel (mkWaitForVideoInput id p t format))
            (fun r => ret (Handled r)) w).
Proof.
  split; [|split; [|split; [|split; [|split; [|split]]]]].
  - intros v Hget Hv. unfold WaitForVideoInputSchema. rewrite Hget.
    destruct (z_int_range_rejects 5 60 10 "poll_interval_seconds" v Hv) as [i Hi].
    rewrite Hi.
    destruct (z_string_min1 _ _), (z_int_range 30 600 300 _ _),
      (z_response_format _ _), (strict _ _); eexists; reflexivity.
  - intros v Hget Hv. unfold WaitForVideoInputSchema. rewrite Hget.
    destruct (z_int_range_rejects 30 600 300 "timeout_seconds" v Hv) as [i Hi].
    rewrite Hi.
    destruct (z_string_min1 _ _), (z_int_range 5 60 10 _ _),
      (z_response_format _ _), (strict _ _); eexists; reflexivity.
  - intros issues H. unfold call_veo_wait_for_video. rewrite H. reflexivity.
  - intros p Hp. apply z_int_range_pins. exact Hp.
  - intros t Ht. apply z_int_range_pins. exact Ht.
  - intros params Hparse.
    assert (Hcall : call_veo_wait_for_video env fuel args w =
              bind (veo_wait_for_video env fuel params)
                   (fun r => ret (Handled r)) w).
    { unfold call_veo_wait_for_video. rewrite Hparse. reflexivity. }
    unfold WaitForVideoInputSchema in Hparse.
    destruct (z_string_min1 "operation_name" (get args "operation_name"))
      as [|id] eqn:Hn; [discriminate|].
    destruct (z_int_range 5 60 10 "poll_interval_seconds" _)
      as [|p] eqn:Hp; [discriminate|].
    destruct (z_int_range 30 600 300 "timeout_seconds" _)
      as [|t] eqn:Ht; [discriminate|].
    destruct (z_response_format "response_format" _)
      as [|format] eqn:Hf; [discriminate|].
    destruct (strict _ args); [|discriminate].
    inversion Hparse; subst params. cbn [operation_name poll_interval_seconds
                                         timeout_seconds response_format].
    apply z_string_min1_sound in Hn. destruct Hn as [Hn _].
    split; [exact Hn|].
    split; [apply (z_int_range_sound _ _ _ _ _ _ Hp)|].
    split; [apply (z_int_range_sound _ _ _ _ _ _ Ht)|].
    split; [apply (z_response_format_sound _ _ _ Hf)|exact Hcall].
  - intros id p t format Hid Hne Hp Ht Hf Hkeys.
    assert (Hzn : z_string_min1 "operation_name" (get args "operation_name") = inr id).
    { rewrite Hid. destruct id; [congruence|reflexivity]. }
    assert (Hparse : WaitForVideoInputSchema args
                       = inr (mkWaitForVideoInput id p t format)).
    { unfold WaitForVideoInputSchema.
      rewrite Hzn, (z_int_range_pins _ _ _ _ _ _ Hp),
        (z_int_range_pins _ _ _ _ _ _ Ht), (z_response_format_pins _ _ _ Hf).
      pose proof (strict_accepts WaitForVideoKeys args Hkeys) as Hs.
      unfold WaitForVideoKeys in Hs. rewrite Hs. reflexivity. }
    split; [exact Hparse|].
    unfold call_veo_wait_for_video. rewrite Hparse. reflexivity.
Qed.

(** The theorem at an input with [poll_interval_seconds = 61], at an input
    within all bounds, and at one that leaves both numbers out. *)
Lemma wait_input_validation_witness :
  (exists issues, WaitForVideoInputSchema late_args = inl issues) /\
  (WaitForVideoInputSchema good_args
     = inr (mkWaitForVideoInput "abc123" 5 30 JSON) /\
   call_veo_wait_for_video (stub_env (fun _ => Data finished) 0) 1 good_args (fresh 0) =
     bind (veo_wait_for_video (stub_env (fun _ => Data finished) 0) 1
             (mkWaitForVideoInput "abc123" 5 30 JSON))
          (fun r => ret (Handled r)) (fresh 0)) /\
  (WaitForVideoInputSchema [("operation_name", JStr "abc123")]
     = inr (mkWaitForVideoInput "abc123" 10 300 MARKDOWN) /\
   call_veo_wait_for_video (stub_env (fun _ => Data finished) 0) 1
     [("operation_name", JStr "abc123")] (fresh 0) =
     bind (veo_wait_for_video (stub_env (fun _ => Data finished) 0) 1
             (mkWaitForVideoInput "abc123" 10 300 MARKDOWN))
          (fun r => ret (Handled r)) (fresh 0)).
Proof.
  split; [|split].
  - destruct (wait_input_validation (stub_env (fun _ => Data finished) 0) 1
                late_args (fresh 0)) as (Hpoll & _).
    apply (Hpoll (JInt 61)); reflexivity.
  - destruct (wait_input_validation (stub_env (fun _ => Data finished) 0) 1
                good_args (fresh 0)) as (_ & _ & _ & _ & _ & _ & Hgood).
    apply Hgood.
    + reflexivity.
    + discriminate.
    + right. exists (inject_Z 5). split; [reflexivity|]. split; [reflexivity|lia].
    + right. exists (inject_Z 30). split; [reflexivity|]. split; [reflexivity|lia].
    + right. right. split; reflexivity.
    + intros k Hin. cbn in Hin. unfold WaitForVideoKeys. cbn.
      intuition.
  - destruct (wait_input_validation (stub_env (fun _ => Data finished) 0) 1
                [("operation_name", JStr "abc123")] (fresh 0))
      as (_ & _ & _ & _ & _ & _ & Hgood).
    apply Hgood.
    + reflexivity.
    + discriminate.
    + left. split; reflexivity.
    + left. split; reflexivity.
    + left. split; reflexivity.
    + intros k Hin. cbn in Hin. unfold WaitForVideoKeys. cbn.
      intuition.
Defined.

(** The checks on the other fields are the schema's own: with both
    numbers within bounds, an empty [operation_name], an unknown
    [response_format] or an undeclared key still gets the input rejected,
    with no remote call. *)
Lemma other_fields_checked_too :
  int_in_range 5 60 (JInt 10) = true /\
  int_in_range 30 600 (JInt 300) = true /\
  call_veo_wait_for_video (stub_env (fun _ => Data finished) 0) 200
    empty_name_args (fresh 0)
    = (Ret (InvalidParams [too_small "operation_name"]), fresh 0) /\
  call_veo_wait_for_video (stub_env (fun _ => Data finished) 0) 200
    bad_format_args (fresh 0)
    = (Ret (InvalidParams [invalid_enum_value "response_format"]), fresh 0) /\
  call_veo_wait_for_video (stub_env (fun _ => Data finished) 0) 200
    extra_key_args (fresh 0)
    = (Ret (InvalidParams [unrecognized_keys ["retries"]]), fresh 0).
Proof. repeat split. Qed.

(** ** C9: pacing of the polling loop *)

Lemma ForallOrdPairs_snoc {A : Type} (R : A -> A -> Prop) (l : list A) (x : A) :
  ForallOrdPairs R l ->
  Forall (fun y => R y x) l ->
  ForallOrdPairs R (l ++ [x]).
Proof.
  induction 1 as [|y l Hy Hl IH]; cbn; intros Hx.
  - constructor; constructor.
  - inversion Hx; subst. constructor.
    + apply Forall_snoc; assumption.
    + apply IH. assumption.
Qed.

Lemma timer_delay_ge (ms : Z) : ms <= 2147483647 -> ms <= timer_delay ms.
Proof.
  intros H. unfold timer_delay.
  destruct (Z.ltb_spec ms 1); cbn; [lia|].
  destruct (Z.ltb_spec 2147483647 ms); cbn; lia.
Qed.

Section Pacing.

Variable env : Env.
Variable params : WaitForVideoInput.
Variable endpoint : string.
Variables startTime timeoutMs pollIntervalMs : Z.
Hypothesis Hinterval : pollIntervalMs <= 2147483647.

(** A request issued when an iteration begins keeps the log paced. *)
Lemma request_paced (w : World) (t1 : Z) (m : Method) (url : string) :
  now w <= t1 ->
  entry_inv pollIntervalMs w ->
  paced_log pollIntervalMs timeoutMs startTime (log w) ->
  paced_log pollIntervalMs timeoutMs startTime
    (log w ++ [Request m url (now w) t1]).
Proof.
  intros Ht1 Hentry (Hseq & Hgap & Hsleep).
  repeat split.
  - apply ForallOrdPairs_snoc; [exact Hseq|].
    eapply Forall_impl; [|exact Hentry].
    intros e (Hbe & Hend & _). split; [exact Hbe|exact Hend].
  - apply ForallOrdPairs_snoc; [exact Hgap|].
    eapply Forall_impl; [|exact Hentry].
    intros e (_ & _ & Hreq) He _. apply Hreq. exact He.
  - apply Forall_snoc; [exact Hsleep|exact I].
Qed.

(** A sleep started before the deadline, right after a request settled,
    keeps the log paced and re-establishes the entry invariant. *)
Lemma sleep_paced (w : World) (t1 t2 : Z) (m : Method) (url : string) :
  now w <= t1 ->
  t1 - startTime < timeoutMs ->
  t1 <= t2 ->
  t1 + pollIntervalMs <= t2 ->
  entry_inv pollIntervalMs w ->
  paced_log pollIntervalMs timeoutMs startTime
    (log w ++ [Request m url (now w) t1]) ->
  paced_log pollIntervalMs timeoutMs startTime
    ((log w ++ [Request m url (now w) t1]) ++ [Sleep pollIntervalMs t1 t2]) /\
  Forall (fun e => ev_begin e <= ev_end e /\ ev_end e <= t2 /\
                   (is_request e -> ev_begin e + pollIntervalMs <= t2))
    ((log w ++ [Request m url (now w) t1]) ++ [Sleep pollIntervalMs t1 t2]).
Proof.
  intros Ht1 Hearly Hle Ht2 Hentry (Hseq & Hgap & Hsleep).
  assert (Hold : Forall (fun e => ev_begin e <= ev_end e /\ ev_end e <= t1 /\
                                  (is_request e -> ev_begin e + pollIntervalMs <= t2))
                   (log w ++ [Request m url (now w) t1])).
  { apply Forall_snoc.
    - eapply Forall_impl; [|exact Hentry].
      intros e (Hbe & Hend & Hreq). repeat split; [lia|lia|].
      intros He. specialize (Hreq He). lia.
    - cbn. repeat split; lia. }
  split.
  - repeat split.
    + apply ForallOrdPairs_snoc; [exact Hseq|].
      eapply Forall_impl; [|exact Hold].
      intros e (Hbe & Hend & _). split; [exact Hbe|exact Hend].
    + apply ForallOrdPairs_snoc; [exact Hgap|].
      eapply Forall_impl; [|exact Hold].
      intros e _ _ Hfalse. destruct Hfalse.
    + apply Forall_snoc; [exact Hsleep|].
      cbn. repeat split; [exact Hearly|exact Ht2].
  - apply Forall_snoc.
    + eapply Forall_impl; [|exact Hold].
      intros e (Hbe & Hend & Hreq). repeat split; [lia|lia|exact Hreq].
    + cbn. repeat split; [lia|lia|]. intros Hfalse. destruct Hfalse.
Qed.

(** The loop keeps the log paced. *)
Lemma poll_loop_paced (fuel c : nat) (w : World) :
  entry_inv pollIntervalMs w ->
  paced_log pollIntervalMs timeoutMs startTime (log w) ->
  paced_log pollIntervalMs timeoutMs startTime
    (log (snd (poll_loop env params endpoint startTime timeoutMs pollIntervalMs
                 fuel c w))).
Proof.
  induction fuel as [|fuel IH] in c, w |- *; intros Hentry Hpaced; [exact Hpaced|].
  cbn [poll_loop]. unfold bind at 1.
  destruct (configured env) eqn:Hkey.
  - rewrite makeVeoRequest_configured by exact Hkey.
    unfold axios.
    set (t1 := now w + Z.of_N (latency env (S (sent w)))).
    assert (Ht1 : now w <= t1) by (unfold t1; lia).
    pose proof (request_paced w t1 GET (url_of endpoint) Ht1 Hentry Hpaced) as Hreq.
    destruct (http env (S (sent w)) (url_of endpoint)) as [operation|e];
      [|exact Hreq].
    destruct (done_truthy operation || error_truthy operation); [exact Hreq|].
    unfold bind at 1, date_now at 1. cbn [now].
    destruct (Z.leb_spec timeoutMs (t1 - startTime)) as [|Hearly]; [exact Hreq|].
    unfold bind at 1, sleep at 1. cbn [now sent timers log].
    set (t2 := t1 + timer_delay pollIntervalMs
               + Z.of_N (timer_extra env (S (timers w)))).
    assert (Ht2 : t1 + pollIntervalMs <= t2).
    { unfold t2. pose proof (timer_delay_ge pollIntervalMs Hinterval). lia. }
    assert (Hle : t1 <= t2).
    { unfold t2. pose proof (timer_delay_pos pollIntervalMs). lia. }
    destruct (sleep_paced w t1 t2 GET (url_of endpoint) Ht1 Hearly Hle Ht2 Hentry Hreq)
      as [Hpaced2 Hentry2].
    apply IH; [exact Hentry2|exact Hpaced2].
  - rewrite makeVeoRequest_unconfigured by exact Hkey. exact Hpaced.
Qed.

End Pacing.

(** C9.  In the log of a wait call with a valid poll interval, every
    action is over before the next one begins, so the fetches are strictly
    sequential; any two fetches begin at least one poll interval apart;
    and every sleep is for the poll interval and starts while the elapsed
    time is still below the timeout, the deadline check coming before the
    sleep. *)
Theorem wait_fetches_sequential_and_paced
    (env : Env) (fuel : nat) (params : WaitForVideoInput) (t0 : Z) :
  5 <= poll_interval_seconds params <= 60 ->
  ForallOrdPairs precedes
    (log (snd (veo_wait_for_video env fuel params (fresh t0)))) /\
  ForallOrdPairs (spaced (poll_interval_seconds params * 1000))
    (log (snd (veo_wait_for_video env fuel params (fresh t0)))) /\
  Forall (sleeps_before_deadline (poll_interval_seconds params * 1000)
            (timeout_seconds params * 1000) t0)
    (log (snd (veo_wait_for_video env fuel params (fresh t0)))).
Proof.
  intros Hp. rewrite wait_world.
  change (now (fresh t0)) with t0.
  apply poll_loop_paced.
  - lia.
  - constructor.
  - repeat split; constructor.
Qed.

(** The theorem at a stub that reports completion on the third fetch,
    polled every 5 s. *)
Lemma wait_fetches_sequential_and_paced_witness :
  ForallOrdPairs precedes
    [ Request GET (url_of "operations/abc123") 0 0;
      Sleep 5000 0 5000;
      Request GET (url_of "operations/abc123") 5000 5000;
      Sleep 5000 5000 10000;
      Request GET (url_of "operations/abc123") 10000 10000 ] /\
  ForallOrdPairs (spaced 5000)
    [ Request GET (url_of "operations/abc123") 0 0;
      Sleep 5000 0 5000;
      Request GET (url_of "operations/abc123") 5000 5000;
      Sleep 5000 5000 10000;
      Request GET (url_of "operations/abc123") 10000 10000 ] /\
  Forall (sleeps_before_deadline 5000 30000 0)
    [ Request GET (url_of "operations/abc123") 0 0;
      Sleep 5000 0 5000;
      Request GET (url_of "operations/abc123") 5000 5000;
      Sleep 5000 5000 10000;
      Request GET (url_of "operations/abc123") 10000 10000 ].
Proof.
  apply (wait_fetches_sequential_and_paced
           (stub_env (fun j => if (j <? 3)%nat then Data pending else Data finished) 0)
           5 (mkWaitForVideoInput "abc123" 5 30 JSON) 0).
  cbn. lia.
Defined.

(** ** Worked runs *)

(** A status fetch for the bare token "abc123" asks for
    "operations/abc123"; a pending snapshot is reported in progress. *)
Example status_of_pending_run :
  veo_get_operation_status
    (stub_env (fun _ => Data {| name := "operations/abc123"; done := Some false;
                                error := None; response := None |}) 0)
    (mkGetOperationStatusInput "abc123" JSON) (fresh 0)
  = (Ret {| isError := false;
            content := Stringify (JObj
              [ ("operation_name", JStr "operations/abc123");
                ("status", JStr "in_progress");
                ("done", JBool false);
                ("error", JNull);
                ("video_urls", JArr []) ]);
            structuredContent := Some
              [ ("operation_name", JStr "operations/abc123");
                ("status", JStr "in_progress");
                ("done", JBool false);
                ("error", JNull);
                ("video_urls", JArr []) ] |},
     {| now := 0; sent := 1; timers := 0;
        log := [Request GET
                  "https://generativelanguage.googleapis.com/v1beta/operations/abc123"
                  0 0] |}).
Proof. reflexivity. Qed.

(** An error-only snapshot is reported failed, with no artifacts. *)
Example status_of_denied :
  status_output denied =
    [ ("operation_name", JStr "operations/abc123");
      ("status", JStr "failed");
      ("done", JBool false);
      ("error", JObj [("code", JInt 7); ("message", JStr "denied")]);
      ("video_urls", JArr []) ].
Proof. reflexivity. Qed.

(** Polling every 5 s an operation that completes on its third fetch. *)
Example wait_completes_on_third_fetch :
  returned_output
    (veo_wait_for_video
       (stub_env (fun j => if (j <? 3)%nat then Data pending else Data finished) 0)
       3 (mkWaitForVideoInput "abc123" 5 30 JSON) (fresh 0))
  = Some [ ("operation_name", JStr "operations/abc123");
           ("status", JStr "completed");
           ("done", JBool true);
           ("elapsed_seconds", JInt 10);
           ("poll_count", JInt 3);
           ("error", JNull);
           ("video_urls", JArr [JStr "uri1"]) ].
Proof. reflexivity. Qed.

(** With no credential the wait handler makes no request at all. *)
Example wait_without_credential :
  veo_wait_for_video
    {| GEMINI_API_KEY := None; http := fun _ _ => Data finished;
       latency := fun _ => 0%N; timer_extra := fun _ => 0%N |}
    3 (mkWaitForVideoInput "abc123" 5 30 JSON) (fresh 0)
  = (Ret {| isError := true;
            content := Plain
              "Error: Unexpected error occurred: GEMINI_API_KEY environment variable is required";
            structuredContent := None |},
     fresh 0).
Proof. reflexivity. Qed.

(* ------------------------------------------------------------------ *)
(** * Further properties of the code *)

(** ** [handleApiError] *)

Lemma includes_prefix (s sub : string) :
  String.prefix sub s = true -> includes s sub = true.
Proof. intros H. destruct s; cbn [includes]; rewrite H; reflexivity. Qed.

Lemma includes_append_left (a s sub : string) :
  includes s sub = true -> includes (a ++ s) sub = true.
Proof.
  intros H. induction a as [|c a IH]; [exact H|].
  cbn [append includes]. rewrite IH.
  destruct (String.prefix sub _); reflexivity.
Qed.

(** A string occurs in whatever is built around it. *)
Lemma includes_middle (a m b : string) : includes (a ++ m ++ b) m = true.
Proof. apply includes_append_left, includes_prefix, prefix_append. Qed.

Lemma includes_end (a m : string) : includes (a ++ m) m = true.
Proof.
  apply includes_append_left, includes_prefix.
  rewrite <- (prefix_append m ""). f_equal.
  induction m as [|c m IH]; [reflexivity|]. cbn. rewrite <- IH. reflexivity.
Qed.

(** An HTTP error response decides the message by its status alone: the
    axios error code is ignored; 401 and 429 give fixed texts that repeat
    nothing the server said; every other status quotes the server's error
    message when there is a non-empty one and the axios message
    otherwise. *)
Theorem handleApiError_http_response
    (amsg : string) (c : option string) (r : AxiosResponse) :
  handleApiError (AxiosError amsg c (Some r))
    = handleApiError (AxiosError amsg None (Some r)) /\
  (status r = 401 ->
     handleApiError (AxiosError amsg c (Some r))
       = "Error: Invalid API key. Please check your GEMINI_API_KEY environment variable.") /\
  (status r = 429 ->
     handleApiError (AxiosError amsg c (Some r))
       = "Error: Rate limit exceeded. Please wait before making more requests.") /\
  (status r <> 401 -> status r <> 429 ->
     forall server, data_error_message r = Some server -> server <> "" ->
     includes (handleApiError (AxiosError amsg c (Some r))) server = true) /\
  (status r <> 401 -> status r <> 429 ->
     data_error_message r = None \/ data_error_message r = Some "" ->
     includes (handleApiError (AxiosError amsg c (Some r))) amsg = true).
Proof.
  assert (Hquote : status r <> 401 -> status r <> 429 ->
            includes (handleApiError (AxiosError amsg c (Some r)))
              (or_else (data_error_message r) amsg) = true).
  { intros H401 H429. destruct c; cbn [handleApiError].
    all: destruct (Z.eqb_spec (status r) 400); [apply includes_middle|].
    all: destruct (Z.eqb_spec (status r) 401); [contradiction|].
    all: destruct (Z.eqb_spec (status r) 403); [apply includes_middle|].
    all: destruct (Z.eqb_spec (status r) 404); [apply includes_middle|].
    all: destruct (Z.eqb_spec (status r) 429); [contradiction|].
    all: destruct (Z.eqb_spec (status r) 500); [apply includes_middle|].
    all: apply includes_append_left, includes_append_left, includes_end. }
  split; [destruct c; reflexivity|].
  split; [intros H; destruct c; cbn [handleApiError]; rewrite H; reflexivity|].
  split; [intros H; destruct c; cbn [handleApiError]; rewrite H; reflexivity|].
  split.
  - intros H401 H429 server Hs Hne.
    specialize (Hquote H401 H429). rewrite Hs in Hquote.
    destruct server; [congruence|exact Hquote].
  - intros H401 H429 Hnone.
    specialize (Hquote H401 H429).
    destruct Hnone as [Hs|Hs]; rewrite Hs in Hquote; exact Hquote.
Qed.

(** The theorem at a 404 whose body carries a message, and at a 401. *)
Lemma handleApiError_http_response_witness :
  includes
    (handleApiError
       (AxiosError "Request failed with status code 404" (Some "ERR_BAD_REQUEST")
          (Some (mkAxiosResponse 404 (Some "Operation not found")))))
    "Operation not found" = true /\
  handleApiError
    (AxiosError "Request failed with status code 401" (Some "ERR_BAD_REQUEST")
       (Some (mkAxiosResponse 401 (Some "API key not valid"))))
    = "Error: Invalid API key. Please check your GEMINI_API_KEY environment variable.".
Proof.
  split.
  - destruct (handleApiError_http_response
                "Request failed with status code 404" (Some "ERR_BAD_REQUEST")
                (mkAxiosResponse 404 (Some "Operation not found")))
      as (_ & _ & _ & Hserver & _).
    apply Hserver; [discriminate|discriminate|reflexivity|discriminate].
  - destruct (handleApiError_http_response
                "Request failed with status code 401" (Some "ERR_BAD_REQUEST")
                (mkAxiosResponse 401 (Some "API key not valid")))
      as (_ & H401 & _).
    apply H401. reflexivity.
Defined.

(** ** [formatOperationStatus] and the structured outputs *)

(** The object [formatOperationStatus] serialises is the status handler's
    [output], although the two are built by different expressions. *)
Lemma formatOperationStatus_json_eq (operation : OperationResponse) :
  formatOperationStatus_json operation = status_output operation.
Proof.
  unfold formatOperationStatus_json, status_output, status_of, video_urls_of,
    mapped_uris, hasVideo.
  destruct (samples_of operation) as [[|s l]|]; reflexivity.
Qed.

(** In JSON format the text the status handler returns is the
    serialisation of exactly the [structuredContent] it returns. *)
Theorem status_json_text_is_structured
    (env : Env) (sp : GetOperationStatusInput) (w : World) (r : ToolResult) :
  gs_response_format sp = JSON ->
  fst (veo_get_operation_status env sp w) = Ret r ->
  isError r = false ->
  exists out, structuredContent r = Some out /\ content r = Stringify (JObj out).
Proof.
  intros Hfmt Hrun Hok.
  unfold veo_get_operation_status, try_catch, bind, ret in Hrun.
  destruct (makeVeoRequest env _ GET w) as [[operation|e|] w'];
    cbn in Hrun; [| |discriminate].
  - inversion Hrun; subst r. exists (status_output operation).
    split; [reflexivity|]. cbn [content]. rewrite Hfmt. cbn.
    rewrite formatOperationStatus_json_eq. reflexivity.
  - inversion Hrun; subst r. discriminate Hok.
Qed.

Lemma status_json_text_is_structured_witness :
  exists out,
    structuredContent
      {| isError := false; content := formatOperationStatus finished JSON;
         structuredContent := Some (status_output finished) |} = Some out /\
    content
      {| isError := false; content := formatOperationStatus finished JSON;
         structuredContent := Some (status_output finished) |}
      = Stringify (JObj out).
Proof.
  apply (status_json_text_is_structured (stub_env (fun _ => Data finished) 0)
           (mkGetOperationStatusInput "abc123" JSON) (fresh 0)); reflexivity.
Defined.

(** In JSON format the text and the [structuredContent] of a successful
    wait agree on the operation name, the status, the error and the video
    URLs; on a timeout the text is the serialisation of the whole
    [structuredContent]. *)
Theorem wait_json_text_agrees
    (env : Env) (fuel : nat) (params : WaitForVideoInput) (w : World)
    (r : ToolResult) :
  response_format params = JSON ->
  fst (veo_wait_for_video env fuel params w) = Ret r ->
  isError r = false ->
  exists out text,
    structuredContent r = Some out /\
    content r = Stringify (JObj text) /\
    get text "operation_name" = get out "operation_name" /\
    get text "status" = get out "status" /\
    get text "error" = get out "error" /\
    get text "video_urls" = get out "video_urls" /\
    (get out "status" = Some (JStr "timeout") -> text = out).
Proof.
  intros Hfmt Hrun Hok. rewrite wait_unfold_at in Hrun.
  destruct (poll_loop env params _ (now w) _ _ fuel 0 w)
    as [[[operation pollCount|result]|e|] w'] eqn:Hloop; cbn in Hrun;
    try discriminate; inversion Hrun; subst r; clear Hrun;
    try (apply poll_loop_returns in Hloop).
  - exists (final_output operation (now w' - now w) pollCount),
      (formatOperationStatus_json operation).
    split; [reflexivity|]. split; [cbn; rewrite Hfmt; reflexivity|].
    rewrite formatOperationStatus_json_eq.
    split; [reflexivity|]. split.
    { cbn. unfold status_of. unfold terminal in Hloop.
      destruct (error_truthy operation); [reflexivity|].
      rewrite orb_false_r in Hloop. rewrite Hloop. reflexivity. }
    split; [reflexivity|]. split; [reflexivity|].
    cbn. destruct (error_truthy operation); discriminate.
  - destruct Hloop as (operation & elapsed & n & -> & _ & _).
    exists (timeout_output operation params elapsed n),
      (timeout_output operation params elapsed n).
    unfold timeout_result. rewrite Hfmt. cbn [structuredContent content].
    repeat split; reflexivity.
  - discriminate Hok.
Qed.

Lemma wait_json_text_agrees_witness :
  exists out text,
    structuredContent
      {| isError := false; content := formatOperationStatus denied JSON;
         structuredContent := Some (final_output denied 0 1) |} = Some out /\
    content
      {| isError := false; content := formatOperationStatus denied JSON;
         structuredContent := Some (final_output denied 0 1) |}
      = Stringify (JObj text) /\
    get text "operation_name" = get out "operation_name" /\
    get text "status" = get out "status" /\
    get text "error" = get out "error" /\
    get text "video_urls" = get out "video_urls" /\
    (get out "status" = Some (JStr "timeout") -> text = out).
Proof.
  apply (wait_json_text_agrees (stub_env (fun _ => Data denied) 0) 1
           (mkWaitForVideoInput "abc123" 10 300 JSON) (fresh 0)); reflexivity.
Defined.

Lemma video_lines_length (k : nat) (samples : list Sample) :
  List.length (video_lines k samples) = List.length samples.
Proof.
  induction samples as [|s l IH] in k |- *; cbn; [reflexivity|].
  rewrite IH. reflexivity.
Qed.

Lemma video_lines_nth (k i : nat) (samples : list Sample) (sample : Sample) :
  nth_error samples i = Some sample ->
  nth_error (video_lines k samples) i
    = Some (show_nat (k + i + 1) ++ ". " ++ video_uri sample).
Proof.
  induction samples as [|s l IH] in k, i |- *; intros Hi.
  - destruct i; discriminate.
  - destruct i as [|i]; cbn in Hi |- *.
    + inversion Hi; subst. rewrite Nat.add_0_r. reflexivity.
    + rewrite (IH (S k) i Hi).
      replace (S k + i + 1)%nat with (k + S i + 1)%nat by lia. reflexivity.
Qed.

(** The markdown list of generated videos has one line per sample, in
    order, numbered from 1. *)
Theorem video_lines_numbered (samples : list Sample) :
  List.length (video_lines 0 samples) = List.length samples /\
  forall i sample,
    nth_error samples i = Some sample ->
    nth_error (video_lines 0 samples) i
      = Some (show_nat (i + 1) ++ ". " ++ video_uri sample).
Proof.
  split; [apply video_lines_length|].
  intros i sample Hi. apply (video_lines_nth 0 i samples sample Hi).
Qed.

Lemma video_lines_numbered_witness :
  nth_error (video_lines 0 [mkSample "uri1"; mkSample "uri2"]) 1
    = Some "2. uri2".
Proof.
  destruct (video_lines_numbered [mkSample "uri1"; mkSample "uri2"]) as [_ Hnth].
  exact (Hnth 1%nat (mkSample "uri2") eq_refl).
Defined.

(** ** Bookkeeping and duration of a wait call *)

Section Bookkeeping.

Variable env : Env.
Variable params : WaitForVideoInput.
Variable endpoint : string.
Variables startTime timeoutMs pollIntervalMs : Z.

(** When the loop is left with a value, the counter it reports has grown
    by the number of requests sent, one more than the number of sleeps,
    and a timeout reports the clock reading of that moment. *)
Lemma poll_loop_counts (fuel c : nat) (w w' : World) (exit : LoopExit) :
  poll_loop env params endpoint startTime timeoutMs pollIntervalMs fuel c w
    = (Ret exit, w') ->
  exists d,
    sent w' = (sent w + S d)%nat /\ timers w' = (timers w + d)%nat /\
    match exit with
    | Break operation pollCount => pollCount = (c + S d)%nat
    | Return result =>
        exists operation,
          result = timeout_result operation params (now w' - startTime) (c + S d)
    end.
Proof.
  induction fuel as [|fuel IH] in c, w |- *; [discriminate|].
  cbn [poll_loop]. unfold bind at 1.
  destruct (configured env) eqn:Hkey.
  - rewrite makeVeoRequest_configured by exact Hkey.
    unfold axios.
    destruct (http env (S (sent w)) (url_of endpoint)) as [operation|e];
      [|discriminate].
    destruct (done_truthy operation || error_truthy operation).
    { unfold ret. intros H. inversion H; subst. exists 0%nat. cbn.
      repeat split; lia. }
    unfold bind at 1, date_now at 1. cbn [now].
    destruct (timeoutMs <=? _).
    { unfold ret. intros H. inversion H; subst. exists 0%nat. cbn [sent timers now].
      split; [lia|]. split; [lia|].
      exists operation. replace (c + 1)%nat with (S c) by lia. reflexivity. }
    unfold bind at 1, sleep at 1. cbn [now sent timers log].
    intros H. apply IH in H. cbn [sent timers] in H.
    destruct H as (d & Hs & Ht & Hexit).
    exists (S d). split; [lia|]. split; [lia|].
    destruct exit as [operation' n|result].
    + lia.
    + destruct Hexit as [operation' ->]. exists operation'.
      replace (c + S (S d))%nat with (S c + S d)%nat by lia. reflexivity.
  - rewrite makeVeoRequest_unconfigured by exact Hkey. discriminate.
Qed.

End Bookkeeping.

(** Whatever the service does, the figures a wait call reports are true
    of the call: [poll_count] is the number of requests it sent, one more
    than the number of times it slept, and [elapsed_seconds] is its
    duration on the clock, rounded to the second. *)
Theorem wait_reports_its_own_run
    (env : Env) (fuel : nat) (params : WaitForVideoInput) (w : World) (out : Obj) :
  returned_output (veo_wait_for_video env fuel params w) = Some out ->
  get out "poll_count"
    = Some (JInt (Z.of_nat (sent (snd (veo_wait_for_video env fuel params w))
                            - sent w))) /\
  get out "elapsed_seconds"
    = Some (JInt (round_seconds
                    (now (snd (veo_wait_for_video env fuel params w)) - now w))) /\
  (timers (snd (veo_wait_for_video env fuel params w)) - timers w + 1
   = sent (snd (veo_wait_for_video env fuel params w)) - sent w)%nat.
Proof.
  unfold returned_output. rewrite wait_unfold_at.
  destruct (poll_loop env params _ (now w) _ _ fuel 0 w)
    as [[[operation pollCount|result]|e|] w'] eqn:Hloop; cbn [fst snd];
    try discriminate; apply poll_loop_counts in Hloop;
    destruct Hloop as (d & Hs & Ht & Hexit).
  - cbn [structuredContent]. intros H. inversion H; subst out pollCount.
    cbn [get String.eqb Ascii.eqb Bool.eqb]. cbn.
    replace (sent w' - sent w)%nat with (S d) by lia.
    repeat split; try reflexivity. lia.
  - destruct Hexit as [operation ->].
    unfold timeout_result.
    destruct (response_format params); cbn [structuredContent];
      intros H; inversion H; subst out; cbn;
      replace (sent w' - sent w)%nat with (S d) by lia;
      (repeat split; try reflexivity; lia).
Qed.

Lemma wait_reports_its_own_run_witness :
  get (final_output finished 10000 3) "poll_count" = Some (JInt 3) /\
  get (final_output finished 10000 3) "elapsed_seconds" = Some (JInt 10).
Proof.
  destruct (wait_reports_its_own_run
              (stub_env (fun j => if (j <? 3)%nat then Data pending else Data finished) 0)
              3 (mkWaitForVideoInput "abc123" 5 30 JSON) (fresh 0)
              (final_output finished 10000 3) eq_refl) as (Hpolls & Helapsed & _).
  split; [exact Hpolls|exact Helapsed].
Defined.

(** A wait call with valid arguments ends, whatever the service answers:
    it sends at most [⌈t/p⌉ + 1] requests, and it is over less than one
    poll interval, one late timer and one request after the timeout. *)
Theorem wait_is_bounded
    (env : Env) (id : string) (p t : Z) (format : ResponseFormat)
    (t0 : Z) (fuel : nat) :
  configured env = true ->
  5 <= p <= 60 ->
  30 <= t <= 600 ->
  (Z.to_nat (ceil_div t p) < fuel)%nat ->
  exists result w',
    veo_wait_for_video env fuel (mkWaitForVideoInput id p t format) (fresh t0)
      = (Ret result, w') /\
    (1 <= sent w')%nat /\
    Z.of_nat (sent w') <= ceil_div t p + 1 /\
    now w' - t0 < t * 1000 + p * 1000
                  + Z.of_N (timer_extra env (sent w' - 1))
                  + Z.of_N (latency env (sent w')).
Proof.
  intros Hkey Hp Ht Hfuel.
  destruct (first_exit_exists env (mkWaitForVideoInput id p t format) t0 Hp Ht)
    as (k & Hle & Hnq & Hq).
  cbn [operation_name poll_interval_seconds timeout_seconds] in Hle, Hnq, Hq.
  destruct (wait_terminates env (mkWaitForVideoInput id p t format) t0 Hkey Hp Ht fuel Hfuel) as [result Hres].
  pose proof (wait_world env fuel (mkWaitForVideoInput id p t format) (fresh t0)) as Hworld.
  change (now (fresh t0)) with t0 in Hworld.
  cbn [operation_name timeout_seconds poll_interval_seconds] in Hworld.
  rewrite (poll_loop_first_exit env (wait_operationPath id) (p * 1000) (t * 1000)
             t0 (mkWaitForVideoInput id p t format) Hkey k fuel Hq Hnq ltac:(cbn in *; lia)) in Hworld.
  assert (Hsettled : snd (veo_wait_for_video env fuel (mkWaitForVideoInput id p t format) (fresh t0))
                     = world_settled env (wait_operationPath id) (p * 1000) t0 k).
  { rewrite Hworld. unfold exit_at.
    destruct (http env (S k) _) as [operation|e];
      [destruct (terminal operation)|]; reflexivity. }
  destruct (veo_wait_for_video env fuel (mkWaitForVideoInput id p t format) (fresh t0)) as [res w'] eqn:Hrun.
  cbn [fst snd] in Hres, Hsettled. subst res w'.
  exists result, (world_settled env (wait_operationPath id) (p * 1000) t0 k).
  split; [reflexivity|].
  destruct (counters_settled env (wait_operationPath id) (p * 1000) t0 k) as [Hs _].
  rewrite Hs.
  pose proof (N_bounds (mkWaitForVideoInput id p t format) Hp Ht) as HN. cbn in HN, Hle.
  split; [lia|]. split; [lia|].
  change (now (world_settled env (wait_operationPath id) (p * 1000) t0 k) - t0)
    with (elapsed_at env (wait_operationPath id) (p * 1000) t0 k).
  rewrite elapsed_closed, timer_delay_valid by lia.
  destruct k as [|j].
  - unfold total_lag. cbn [pred latency_sum extra_sum]. lia.
  - specialize (Hq j ltac:(lia)). unfold quiet in Hq.
    destruct (http env (S j) _) as [o|]; [|discriminate].
    apply andb_true_iff in Hq. destruct Hq as [_ Hlt]. apply Z.ltb_lt in Hlt.
    rewrite elapsed_closed, timer_delay_valid in Hlt by lia.
    unfold total_lag in *. cbn [pred latency_sum extra_sum] in *.
    replace (S (S j) - 1)%nat with (S j) by lia.
    cbn [timeout_seconds poll_interval_seconds] in Hlt.
    lia.
Qed.

Lemma wait_is_bounded_witness :
  exists result w',
    veo_wait_for_video (stub_env (fun _ => Data pending) 200) 7
      (mkWaitForVideoInput "abc123" 5 30 JSON) (fresh 0)
      = (Ret result, w') /\
    (1 <= sent w')%nat /\
    Z.of_nat (sent w') <= ceil_div 30 5 + 1 /\
    now w' - 0 < 30 * 1000 + 5 * 1000
                 + Z.of_N (timer_extra (stub_env (fun _ => Data pending) 200)
                             (sent w' - 1))
                 + Z.of_N (latency (stub_env (fun _ => Data pending) 200) (sent w')).
Proof.
  apply (wait_is_bounded (stub_env (fun _ => Data pending) 200)
           "abc123" 5 30 JSON 0 7).
  - reflexivity.
  - lia.
  - lia.
  - vm_compute. lia.
Defined.

(** ** A missing credential *)

(** Without a usable [GEMINI_API_KEY] (absent or empty) none of the four
    tools that call the service sends a request or sleeps: each returns
    the error result for the credential error and leaves the world as it
    was. *)
Theorem missing_credential_makes_no_request
    (env : Env) (w : World) (fuel : nat)
    (sp : GetOperationStatusInput) (wp : WaitForVideoInput)
    (gp : GenerateVideoInput) (ip : GenerateVideoFromImageInput) :
  configured env = false ->
  (1 <= fuel)%nat ->
  handleApiError (JsError "GEMINI_API_KEY environment variable is required")
    = "Error: Unexpected error occurred: GEMINI_API_KEY environment variable is required" /\
  veo_get_operation_status env sp w
    = (Ret (error_result
              (JsError "GEMINI_API_KEY environment variable is required")), w) /\
  veo_wait_for_video env fuel wp w
    = (Ret (error_result
              (JsError "GEMINI_API_KEY environment variable is required")), w) /\
  veo_generate_video env gp w
    = (Ret (error_result
              (JsError "GEMINI_API_KEY environment variable is required")), w) /\
  veo_generate_video_from_image env ip w
    = (Ret (error_result
              (JsError "GEMINI_API_KEY environment variable is required")), w).
Proof.
  intros Hkey Hfuel.
  split; [reflexivity|]. split; [|split; [|split]].
  - unfold veo_get_operation_status, try_catch, bind.
    rewrite makeVeoRequest_unconfigured by exact Hkey. reflexivity.
  - destruct fuel as [|fuel]; [lia|].
    unfold veo_wait_for_video, try_catch, bind, date_now.
    cbn [poll_loop]. unfold bind.
    rewrite makeVeoRequest_unconfigured by exact Hkey. reflexivity.
  - unfold veo_generate_video, makeVeoRequest_data, try_catch, bind.
    rewrite makeVeoRequest_unconfigured by exact Hkey. reflexivity.
  - unfold veo_generate_video_from_image, makeVeoRequest_data, try_catch, bind.
    rewrite makeVeoRequest_unconfigured by exact Hkey. reflexivity.
Qed.

Lemma missing_credential_makes_no_request_witness :
  veo_wait_for_video
    {| GEMINI_API_KEY := Some ""; http := fun _ _ => Data finished;
       latency := fun _ => 0%N; timer_extra := fun _ => 0%N |}
    1 (mkWaitForVideoInput "abc123" 5 30 JSON) (fresh 0)
  = (Ret (error_result
            (JsError "GEMINI_API_KEY environment variable is required")), fresh 0).
Proof.
  destruct (missing_credential_makes_no_request
              {| GEMINI_API_KEY := Some ""; http := fun _ _ => Data finished;
                 latency := fun _ => 0%N; timer_extra := fun _ => 0%N |}
              (fresh 0) 1
              (mkGetOperationStatusInput "abc123" JSON)
              (mkWaitForVideoInput "abc123" 5 30 JSON)
              kite_params
              (mkGenerateVideoFromImageInput "p" "AAAA" "image/png"
                 "veo-3.0-generate-001" None LANDSCAPE 4 None ALLOW_ADULT JSON)
              eq_refl (le_n 1)) as (_ & _ & Hwait & _).
  exact Hwait.
Defined.

(** ** The data-URI prefix of an image *)

Lemma includes_semicolon_cons (c : ascii) (s : string) :
  includes (String c s) ";" = false -> c <> ";"%char /\ includes s ";" = false.
Proof.
  cbn [includes String.prefix].
  destruct (ascii_dec ";" c) as [Heq|Hne].
  - destruct s; discriminate.
  - intros H. split; [congruence|exact H].
Qed.

Lemma span_mime_append (mime rest : string) :
  includes mime ";" = false ->
  span_mime (mime ++ ";" ++ rest) = (mime, ";" ++ rest).
Proof.
  induction mime as [|c mime IH]; intros H; [reflexivity|].
  apply includes_semicolon_cons in H. destruct H as [Hc Hm].
  cbn [append span_mime] in IH |- *.
  destruct (Ascii.eqb_spec c ";"); [contradiction|].
  rewrite (IH Hm). reflexivity.
Qed.

Lemma span_mime_split (s m r : string) : span_mime s = (m, r) -> s = m ++ r.
Proof.
  induction s as [|c s IH] in m, r |- *; cbn [span_mime].
  - intros H. inversion H. reflexivity.
  - destruct (Ascii.eqb c ";"); [intros H; inversion H; reflexivity|].
    destruct (span_mime s) as [m' r']. intros H. inversion H; subst.
    cbn. rewrite (IH m' r eq_refl). reflexivity.
Qed.

Lemma skip_suffix (n : nat) (s : string) : exists pre, s = pre ++ skip n s.
Proof.
  induction n as [|n IH] in s |- *; [exists ""; reflexivity|].
  destruct s as [|c s]; [exists ""; reflexivity|].
  destruct (IH s) as [pre Hpre]. exists (String c pre).
  cbn. rewrite <- Hpre. reflexivity.
Qed.

Lemma append_assoc' (a b c : string) : (a ++ b) ++ c = a ++ b ++ c.
Proof. induction a as [|x a IH]; cbn; [reflexivity|]. rewrite IH. reflexivity. Qed.

Lemma strip_data_uri_framed (mime payload : string) :
  mime <> "" ->
  includes mime ";" = false ->
  payload <> "" ->
  all_dot payload = true ->
  strip_data_uri ("data:" ++ mime ++ ";base64," ++ payload) = payload.
Proof.
  intros Hm Hsemi Hp Hdot.
  unfold strip_data_uri, dataUriMatch.
  rewrite (prefix_append "data:").
  change (skip 5 ("data:" ++ mime ++ ";base64," ++ payload))
    with (mime ++ ";" ++ "base64," ++ payload).
  rewrite span_mime_append by exact Hsemi.
  change (";" ++ "base64," ++ payload) with (";base64," ++ payload).
  rewrite (prefix_append ";base64,").
  change (skip 8 (";base64," ++ payload)) with payload.
  rewrite Hdot.
  destruct mime; [congruence|]. destruct payload; [congruence|]. reflexivity.
Qed.

(** Stripping undoes the framing of a data URI: for a media type that is
    not empty and has no [";"], and a payload that is not empty and has
    no line terminator, the payload comes back whole, and stripping it
    once more changes nothing unless the payload itself begins with
    ["data:"]. *)
Theorem strip_data_uri_round_trip (mime payload : string) :
  mime <> "" ->
  includes mime ";" = false ->
  payload <> "" ->
  all_dot payload = true ->
  strip_data_uri ("data:" ++ mime ++ ";base64," ++ payload) = payload /\
  (String.prefix "data:" payload = false ->
   strip_data_uri (strip_data_uri ("data:" ++ mime ++ ";base64," ++ payload))
     = payload).
Proof.
  intros Hm Hsemi Hp Hdot.
  rewrite (strip_data_uri_framed mime payload Hm Hsemi Hp Hdot).
  split; [reflexivity|].
  intros Hplain. unfold strip_data_uri, dataUriMatch. rewrite Hplain. reflexivity.
Qed.

Lemma strip_data_uri_round_trip_witness :
  strip_data_uri ("data:" ++ "image/png" ++ ";base64," ++ "iVBORw0KGgo=")
    = "iVBORw0KGgo=" /\
  (String.prefix "data:" "iVBORw0KGgo=" = false ->
   strip_data_uri
     (strip_data_uri ("data:" ++ "image/png" ++ ";base64," ++ "iVBORw0KGgo="))
     = "iVBORw0KGgo=").
Proof.
  apply (strip_data_uri_round_trip "image/png" "iVBORw0KGgo=");
    [discriminate|reflexivity|discriminate|reflexivity].
Defined.

(** Stripping only ever removes a prefix: what is sent is a suffix of what
    was given, it is not empty when the input is not, and an input that
    does not begin with ["data:"] is sent as it is. *)
Theorem strip_data_uri_keeps_payload (s : string) :
  (exists pre, s = pre ++ strip_data_uri s) /\
  (s <> "" -> strip_data_uri s <> "") /\
  (String.prefix "data:" s = false -> strip_data_uri s = s).
Proof.
  unfold strip_data_uri, dataUriMatch.
  assert (Hsame : forall b : bool,
            (exists pre, s = pre ++ s) /\ (s <> "" -> s <> "") /\ (b = false -> s = s)).
  { intros b. split; [exists ""; reflexivity|]. split; [auto|reflexivity]. }
  destruct (String.prefix "data:" s) eqn:Hprefix; [|apply Hsame].
  destruct (span_mime (skip 5 s)) as [mime rest] eqn:Hspan.
  destruct (nonempty mime && String.prefix ";base64," rest); [|apply Hsame].
  destruct (nonempty (skip 8 rest) && all_dot (skip 8 rest)) eqn:Hpay;
    [|apply Hsame].
  apply andb_true_iff in Hpay. destruct Hpay as [Hne _].
  split; [|split; [|discriminate]].
  - destruct (skip_suffix 5 s) as [pre1 H1].
    destruct (skip_suffix 8 rest) as [pre2 H2].
    apply span_mime_split in Hspan.
    exists (pre1 ++ mime ++ pre2).
    rewrite !append_assoc'. rewrite <- H2, <- Hspan. exact H1.
  - intros _ Hempty. rewrite Hempty in Hne. discriminate.
Qed.

Lemma strip_data_uri_keeps_payload_witness :
  strip_data_uri "iVBORw0KGgo=" = "iVBORw0KGgo=" /\
  strip_data_uri "data:image/png;base64,iVBORw0KGgo=" <> "".
Proof.
  split.
  - apply (strip_data_uri_keeps_payload "iVBORw0KGgo="). reflexivity.
  - apply (strip_data_uri_keeps_payload "data:image/png;base64,iVBORw0KGgo=").
    discriminate.
Defined.

(** ** The request of the generation tools *)

(** The [parameters] sent to the service: aspect ratio, duration and
    person generation are forwarded as given.  For Veo 2 no [resolution] is
    sent, even when one was supplied; for every other model the supplied
    resolution is sent, or "720p" when none was supplied. *)
Theorem request_resolution_rule
    (model : string) (aspect_ratio : AspectRatio) (duration_seconds : Z)
    (person_generation : PersonGeneration) (resolution : option Resolution)
    (negative_prompt : option string) :
  get (request_parameters model aspect_ratio duration_seconds person_generation
         resolution negative_prompt) "aspectRatio"
    = Some (JStr (AspectRatio_value aspect_ratio)) /\
  get (request_parameters model aspect_ratio duration_seconds person_generation
         resolution negative_prompt) "durationSeconds"
    = Some (JInt duration_seconds) /\
  get (request_parameters model aspect_ratio duration_seconds person_generation
         resolution negative_prompt) "personGeneration"
    = Some (JStr (PersonGeneration_value person_generation)) /\
  (model = "veo-2.0-generate-001" ->
     get (request_parameters model aspect_ratio duration_seconds person_generation
            resolution negative_prompt) "resolution" = None) /\
  (model <> "veo-2.0-generate-001" ->
     get (request_parameters model aspect_ratio duration_seconds person_generation
            resolution negative_prompt) "resolution"
       = Some (JStr (Resolution_value (nullish resolution HD)))).
Proof.
  unfold request_parameters, effectiveResolution.
  split; [reflexivity|]. split; [reflexivity|]. split; [reflexivity|].
  split.
  - intros ->. cbn. destruct negative_prompt as [[|c s]|]; reflexivity.
  - intros Hne. destruct (String.eqb_spec model "veo-2.0-generate-001");
      [contradiction|].
    destruct negative_prompt as [[|c s]|]; reflexivity.
Qed.

Lemma request_resolution_rule_witness :
  get (request_parameters "veo-2.0-generate-001" LANDSCAPE 5 ALLOW_ALL
         (Some FULL_HD) None) "resolution" = None /\
  get (request_parameters "veo-3.0-generate-001" LANDSCAPE 4 ALLOW_ALL
         None None) "resolution" = Some (JStr "720p").
Proof.
  split.
  - apply (request_resolution_rule "veo-2.0-generate-001" LANDSCAPE 5 ALLOW_ALL
             (Some FULL_HD) None). reflexivity.
  - destruct (request_resolution_rule "veo-3.0-generate-001" LANDSCAPE 4 ALLOW_ALL
                None None) as (_ & _ & _ & _ & Hother).
    apply Hother. discriminate.
Defined.

(** [negativePrompt] is sent exactly when a non-empty negative prompt was
    supplied, and then unchanged; an empty one is dropped like an absent
    one. *)
Theorem request_negative_prompt_rule
    (model : string) (aspect_ratio : AspectRatio) (duration_seconds : Z)
    (person_generation : PersonGeneration) (resolution : option Resolution)
    (negative_prompt : option string) :
  (negative_prompt = None \/ negative_prompt = Some "" ->
     get (request_parameters model aspect_ratio duration_seconds person_generation
            resolution negative_prompt) "negativePrompt" = None) /\
  (forall s, negative_prompt = Some s -> s <> "" ->
     get (request_parameters model aspect_ratio duration_seconds person_generation
            resolution negative_prompt) "negativePrompt" = Some (JStr s)).
Proof.
  unfold request_parameters.
  split.
  - intros [->| ->]; destruct (effectiveResolution model resolution); reflexivity.
  - intros s -> Hne. destruct s as [|c s]; [congruence|].
    destruct (effectiveResolution model resolution); reflexivity.
Qed.

Lemma request_negative_prompt_rule_witness :
  get (request_parameters (gv_model kite_params) (gv_aspect_ratio kite_params)
         (gv_duration_seconds kite_params) (gv_person_generation kite_params)
         (gv_resolution kite_params) (gv_negative_prompt kite_params))
    "negativePrompt" = None /\
  get (request_parameters "veo-3.0-generate-001" PORTRAIT 8 ALLOW_ALL None
         (Some "blurry, low quality")) "negativePrompt"
    = Some (JStr "blurry, low quality").
Proof.
  split.
  - apply (request_negative_prompt_rule "veo-2.0-generate-001" LANDSCAPE 5
             ALLOW_ALL (Some FULL_HD) (Some "")).
    right. reflexivity.
  - apply (request_negative_prompt_rule "veo-3.0-generate-001" PORTRAIT 8
             ALLOW_ALL None (Some "blurry, low quality")).
    + reflexivity.
    + discriminate.
Defined.

(** A generation call with a credential sends exactly one POST, to
    [models/<model>:predictLongRunning], and never sleeps.  When the
    service answers, the result is not an error and its structured output
    names the operation the service returned, with status "submitted", in
    both formats; when the request throws, the result is the error
    result. *)
Theorem generation_submits_once
    (env : Env) (params : GenerateVideoInput) (w : World) :
  configured env = true ->
  sent (snd (veo_generate_video env params w)) = S (sent w) /\
  timers (snd (veo_generate_video env params w)) = timers w /\
  log (snd (veo_generate_video env params w))
    = (log w ++ [Request POST
                   (url_of ("models/" ++ gv_model params ++ ":predictLongRunning"))
                   (now w) (now w + Z.of_N (latency env (S (sent w))))])%list /\
  (forall operation,
     http env (S (sent w))
       (url_of ("models/" ++ gv_model params ++ ":predictLongRunning"))
       = Data operation ->
     exists r,
       fst (veo_generate_video env params w) = Ret r /\
       isError r = false /\
       structuredContent r
         = Some [ ("operation_name", JStr (name operation));
                  ("model", JStr (gv_model params));
                  ("status", JStr "submitted");
                  ("message", JStr "Video generation started. Use veo_get_operation_status or veo_wait_for_video to track progress.") ]) /\
  (forall e,
     http env (S (sent w))
       (url_of ("models/" ++ gv_model params ++ ":predictLongRunning"))
       = Fails e ->
     fst (veo_generate_video env params w) = Ret (error_result e)).
Proof.
  intros Hkey.
  unfold veo_generate_video, makeVeoRequest_data, try_catch, bind.
  rewrite makeVeoRequest_configured by exact Hkey.
  unfold axios.
  destruct (http env (S (sent w)) _) as [operation|e] eqn:Hhttp.
  - destruct (gv_response_format params); cbn;
      (repeat split; try reflexivity;
       [intros o Ho; inversion Ho; subst; eexists; repeat split; reflexivity
       |intros e He; discriminate He]).
  - cbn. repeat split; try reflexivity.
    + intros o Ho; discriminate Ho.
    + intros e' He; inversion He; reflexivity.
Qed.

Lemma generation_submits_once_witness :
  sent (snd (veo_generate_video (stub_env (fun _ => Data submitted) 0)
               kite_params (fresh 0))) = 1%nat /\
  timers (snd (veo_generate_video (stub_env (fun _ => Data submitted) 0)
                 kite_params (fresh 0))) = 0%nat.
Proof.
  destruct (generation_submits_once (stub_env (fun _ => Data submitted) 0)
              kite_params (fresh 0) eq_refl) as (Hsent & Htimers & _).
  split; [exact Hsent|exact Htimers].
Defined.

(** The image tool sends the stripped image: for a data URI with a media
    type without [";"] and a payload without line terminators the request
    carries the payload alone, beside the declared MIME type; the
    [parameters] follow the same rules as for the text tool. *)
Theorem image_request_carries_payload
    (params : GenerateVideoFromImageInput) (mime payload : string) :
  gi_image_base64 params = "data:" ++ mime ++ ";base64," ++ payload ->
  mime <> "" -> includes mime ";" = false ->
  payload <> "" -> all_dot payload = true ->
  generate_video_from_image_request params
    = JObj [ ("instances",
               JArr [JObj [ ("prompt", JStr (gi_prompt params));
                            ("image",
                              JObj [ ("bytesBase64Encoded", JStr payload);
                                     ("mimeType", JStr (gi_image_mime_type params)) ]) ]]);
             ("parameters",
               JObj (request_parameters (gi_model params) (gi_aspect_ratio params)
                       (gi_duration_seconds params) (gi_person_generation params)
                       (gi_resolution params) (gi_negative_prompt params))) ].
Proof.
  intros Himg Hm Hsemi Hp Hdot.
  unfold generate_video_from_image_request.
  rewrite Himg, (strip_data_uri_framed mime payload Hm Hsemi Hp Hdot).
  reflexivity.
Qed.

Lemma image_request_carries_payload_witness :
  generate_video_from_image_request
    (mkGenerateVideoFromImageInput "pan left" "data:image/jpeg;base64,/9j/4AAQ"
       "image/png" "veo-3.0-generate-001" None LANDSCAPE 4 None ALLOW_ADULT JSON)
  = JObj [ ("instances",
             JArr [JObj [ ("prompt", JStr "pan left");
                          ("image",
                            JObj [ ("bytesBase64Encoded", JStr "/9j/4AAQ");
                                   ("mimeType", JStr "image/png") ]) ]]);
           ("parameters",
             JObj (request_parameters "veo-3.0-generate-001" LANDSCAPE 4
                     ALLOW_ADULT None None)) ].
Proof.
  apply (image_request_carries_payload
           (mkGenerateVideoFromImageInput "pan left" "data:image/jpeg;base64,/9j/4AAQ"
              "image/png" "veo-3.0-generate-001" None LANDSCAPE 4 None ALLOW_ADULT JSON)
           "image/jpeg" "/9j/4AAQ");
    [reflexivity|discriminate|reflexivity|discriminate|reflexivity].
Defined.

(** ** Validation of the other tools' arguments *)

(** A status input is rejected, with no remote call, unless its
    [operation_name] is a non-empty string; with one, a valid
    [response_format] (or none) and no other key, it reaches the
    handler. *)
Theorem status_input_validation (env : Env) (args : Obj) (w : World) :
  ((forall id, get args "operation_name" = Some (JStr id) -> id = "") ->
     exists issues, GetOperationStatusInputSchema args = inl issues) /\
  (forall issues, GetOperationStatusInputSchema args = inl issues ->
     call_veo_get_operation_status env args w = (Ret (InvalidParams issues), w)) /\
  (forall id,
     get args "operation_name" = Some (JStr id) -> id <> "" ->
     (get args "response_format" = None \/
      get args "response_format" = Some (JStr "markdown") \/
      get args "response_format" = Some (JStr "json")) ->
     (forall k, In k (map fst args) -> In k ["operation_name"; "response_format"]) ->
     exists format,
       GetOperationStatusInputSchema args
         = inr (mkGetOperationStatusInput id format) /\
       call_veo_get_operation_status env args w =
         bind (veo_get_operation_status env (mkGetOperationStatusInput id format))
              (fun r => ret (Handled r)) w).
Proof.
  split; [|split].
  - intros Hname. unfold GetOperationStatusInputSchema.
    assert (Hn : exists i, z_string_min1 "operation_name" (get args "operation_name")
                           = inl i).
    { destruct (get args "operation_name") as [[|b|q|s|items|fields]|];
        try (eexists; reflexivity).
      rewrite (Hname s eq_refl). eexists. reflexivity. }
    destruct Hn as [i Hi]. rewrite Hi.
    destruct (z_response_format _ _), (strict _ _); eexists; reflexivity.
  - intros issues H. unfold call_veo_get_operation_status. rewrite H. reflexivity.
  - intros id Hid Hne Hf Hkeys.
    assert (Hzf : exists format,
               z_response_format "response_format" (get args "response_format")
                 = inr format).
    { destruct Hf as [ Hf | [ Hf | Hf ] ]; rewrite Hf; eexists; reflexivity. }
    destruct Hzf as [format Hzf]. exists format.
    assert (Hparse : GetOperationStatusInputSchema args
                       = inr (mkGetOperationStatusInput id format)).
    { unfold GetOperationStatusInputSchema. rewrite Hid, Hzf.
      rewrite (strict_accepts _ args Hkeys).
      destruct id; [congruence|reflexivity]. }
    split; [exact Hparse|].
    unfold call_veo_get_operation_status. rewrite Hparse. reflexivity.
Qed.

Lemma status_input_validation_witness :
  (exists issues,
     GetOperationStatusInputSchema [("response_format", JStr "json")] = inl issues) /\
  (exists format,
     GetOperationStatusInputSchema [("operation_name", JStr "abc123")]
       = inr (mkGetOperationStatusInput "abc123" format) /\
     call_veo_get_operation_status (stub_env (fun _ => Data pending) 0)
       [("operation_name", JStr "abc123")] (fresh 0) =
       bind (veo_get_operation_status (stub_env (fun _ => Data pending) 0)
               (mkGetOperationStatusInput "abc123" format))
            (fun r => ret (Handled r)) (fresh 0)).
Proof.
  split.
  - destruct (status_input_validation (stub_env (fun _ => Data pending) 0)
                [("response_format", JStr "json")] (fresh 0)) as (Hbad & _).
    apply Hbad. intros id H. discriminate H.
  - destruct (status_input_validation (stub_env (fun _ => Data pending) 0)
                [("operation_name", JStr "abc123")] (fresh 0)) as (_ & _ & Hgood).
    apply Hgood.
    + reflexivity.
    + discriminate.
    + left. reflexivity.
    + intros k Hin. cbn in Hin |- *. intuition.
Defined.

Lemma z_string_range_rejects (lo hi : nat) (path s : string) :
  (js_length s < lo \/ hi < js_length s)%nat ->
  exists issues, z_string_range lo hi path (Some (JStr s)) = inl issues.
Proof.
  intros H. unfold z_string_range.
  destruct (Nat.ltb_spec (js_length s) lo), (Nat.ltb_spec hi (js_length s));
    try (eexists; reflexivity). exfalso. lia.
Qed.

Lemma z_string_range_accepts (lo hi : nat) (path s : string) :
  (lo <= js_length s <= hi)%nat ->
  z_string_range lo hi path (Some (JStr s)) = inr s.
Proof.
  intros H. unfold z_string_range.
  destruct (Nat.ltb_spec (js_length s) lo), (Nat.ltb_spec hi (js_length s));
    try lia. reflexivity.
Qed.

(** The text tool needs a prompt of 1 to 5000 UTF-16 code units: an input
    without a prompt, or with one outside that range, is rejected whatever
    else it holds; an input holding only a prompt within the range is
    accepted and gets the defaults: model veo-3.0-generate-001, 16:9,
    4 seconds, no resolution, person generation allow_all, markdown. *)
Theorem generate_input_prompt_and_defaults :
  (forall args, get args "prompt" = None ->
     exists issues, GenerateVideoInputSchema args = inl issues) /\
  (forall args prompt, get args "prompt" = Some (JStr prompt) ->
     (js_length prompt < 1 \/ 5000 < js_length prompt)%nat ->
     exists issues, GenerateVideoInputSchema args = inl issues) /\
  (forall prompt, (1 <= js_length prompt <= 5000)%nat ->
     GenerateVideoInputSchema [("prompt", JStr prompt)]
       = inr {| gv_prompt := prompt;
                gv_model := "veo-3.0-generate-001";
                gv_negative_prompt := None;
                gv_aspect_ratio := LANDSCAPE;
                gv_duration_seconds := 4;
                gv_resolution := None;
                gv_person_generation := ALLOW_ALL;
                gv_response_format := MARKDOWN |}).
Proof.
  split; [|split].
  - intros args Hget. unfold GenerateVideoInputSchema. rewrite Hget.
    cbn [z_string_range lift_parsed]. eexists. reflexivity.
  - intros args prompt Hget Hlen. unfold GenerateVideoInputSchema. rewrite Hget.
    destruct (z_string_range_rejects 1 5000 "prompt" prompt Hlen) as [i Hi].
    rewrite Hi. cbn [lift_parsed]. eexists. reflexivity.
  - intros prompt Hlen. unfold GenerateVideoInputSchema.
    cbn [get String.eqb Ascii.eqb Bool.eqb].
    rewrite (z_string_range_accepts 1 5000 "prompt" prompt Hlen).
    reflexivity.
Qed.

Lemma generate_input_prompt_and_defaults_witness :
  (exists issues, GenerateVideoInputSchema [("prompt", JStr "")] = inl issues) /\
  GenerateVideoInputSchema [("prompt", JStr "A red kite")]
    = inr {| gv_prompt := "A red kite"; gv_model := "veo-3.0-generate-001";
             gv_negative_prompt := None; gv_aspect_ratio := LANDSCAPE;
             gv_duration_seconds := 4; gv_resolution := None;
             gv_person_generation := ALLOW_ALL; gv_response_format := MARKDOWN |}.
Proof.
  destruct generate_input_prompt_and_defaults as (_ & Hbad & Hgood).
  split.
  - apply (Hbad [("prompt", JStr "")] ""); [reflexivity|left; cbn; lia].
  - apply (Hgood "A red kite"). vm_compute. lia.
Defined.

(** The image tool needs a non-empty [image_base64] as well: without one
    the input is rejected; an input holding only a valid prompt and a
    non-empty image is accepted with MIME type image/png and person
    generation allow_adult, the other defaults being those of the text
    tool. *)
Theorem image_input_requirements_and_defaults :
  (forall args,
     (forall img, get args "image_base64" = Some (JStr img) -> img = "") ->
     exists issues, GenerateVideoFromImageInputSchema args = inl issues) /\
  (forall prompt img, (1 <= js_length prompt <= 5000)%nat -> img <> "" ->
     GenerateVideoFromImageInputSchema
       [("prompt", JStr prompt); ("image_base64", JStr img)]
       = inr {| gi_prompt := prompt;
                gi_image_base64 := img;
                gi_image_mime_type := "image/png";
                gi_model := "veo-3.0-generate-001";
                gi_negative_prompt := None;
                gi_aspect_ratio := LANDSCAPE;
                gi_duration_seconds := 4;
                gi_resolution := None;
                gi_person_generation := ALLOW_ADULT;
                gi_response_format := MARKDOWN |}).
Proof.
  split.
  - intros args Himg. unfold GenerateVideoFromImageInputSchema.
    assert (Hi : exists i, z_string_min1 "image_base64" (get args "image_base64")
                           = inl i).
    { destruct (get args "image_base64") as [[|b|q|s|items|fields]|];
        try (eexists; reflexivity).
      rewrite (Himg s eq_refl). eexists. reflexivity. }
    destruct Hi as [i Hi]. rewrite Hi. cbn [lift_parsed].
    destruct (lift_parsed (z_string_range 1 5000 "prompt" (get args "prompt")));
      eexists; reflexivity.
  - intros prompt img Hlen Hne. unfold GenerateVideoFromImageInputSchema.
    cbn [get String.eqb Ascii.eqb Bool.eqb].
    rewrite (z_string_range_accepts 1 5000 "prompt" prompt Hlen).
    destruct img; [congruence|]. reflexivity.
Qed.

Lemma image_input_requirements_and_defaults_witness :
  (exists issues,
     GenerateVideoFromImageInputSchema [("prompt", JStr "pan left")] = inl issues) /\
  GenerateVideoFromImageInputSchema
    [("prompt", JStr "pan left"); ("image_base64", JStr "AAAA")]
    = inr {| gi_prompt := "pan left"; gi_image_base64 := "AAAA";
             gi_image_mime_type := "image/png";
             gi_model := "veo-3.0-generate-001";
             gi_negative_prompt := None; gi_aspect_ratio := LANDSCAPE;
             gi_duration_seconds := 4; gi_resolution := None;
             gi_person_generation := ALLOW_ADULT;
             gi_response_format := MARKDOWN |}.
Proof.
  destruct image_input_requirements_and_defaults as (Hbad & Hgood).
  split.
  - apply (Hbad [("prompt", JStr "pan left")]). intros img H. discriminate H.
  - apply (Hgood "pan left" "AAAA"); [vm_compute; lia|discriminate].
Defined.

(** ** The model table against the schemas and the handlers *)

Lemma existsb_eqb_In (s : string) (values : list string) :
  existsb (String.eqb s) values = true <-> In s values.
Proof.
  rewrite existsb_exists. split.
  - intros (x & Hin & Heq). apply String.eqb_eq in Heq. subst x. exact Hin.
  - intros Hin. exists s. split; [exact Hin|apply String.eqb_refl].
Qed.

(** The model ids the generation tools accept are exactly the ids of the
    models in [VEO_MODELS], which are pairwise distinct and include the
    default model; and those are the models the list tool reports, without
    any remote call. *)
Theorem model_ids_consistent :
  (forall path s,
     ModelIdSchema path (Some (JStr s)) = inr s <->
     exists m, In m VEO_MODELS /\ model_id m = s) /\
  NoDup (map model_id VEO_MODELS) /\
  (exists m, In m VEO_MODELS /\ model_id m = "veo-3.0-generate-001") /\
  (forall format w,
     exists r,
       veo_list_models format w = (Ret r, w) /\
       isError r = false /\
       structuredContent r = Some [("models", JArr (map model_json VEO_MODELS))]).
Proof.
  split; [|split; [|split]].
  - intros path s. unfold ModelIdSchema, z_enum.
    change ModelIds with (map model_id VEO_MODELS).
    split.
    + destruct (existsb (String.eqb s) (map model_id VEO_MODELS)) eqn:He;
        [|discriminate].
      intros _. apply existsb_eqb_In in He. apply in_map_iff in He.
      destruct He as (m & Hid & Hin). exists m. split; assumption.
    + intros (m & Hin & Hid).
      assert (He : existsb (String.eqb s) (map model_id VEO_MODELS) = true).
      { apply existsb_eqb_In. apply in_map_iff. exists m. split; assumption. }
      rewrite He. reflexivity.
  - cbn. repeat constructor; cbn; intuition discriminate.
  - eexists. split; [right; right; left; reflexivity|reflexivity].
  - intros format w. destruct format; eexists; repeat split.
Qed.

Lemma model_ids_consistent_witness :
  ModelIdSchema "model" (Some (JStr "veo-2.0-generate-001"))
    = inr "veo-2.0-generate-001".
Proof.
  destruct model_ids_consistent as (Hids & _).
  apply Hids. eexists. split; [do 4 right; left; reflexivity|reflexivity].
Defined.

(** A resolution is sent to a model of the table exactly when the table
    says the model supports one, and what is sent is always a resolution
    the table lists for that model. *)
Theorem resolution_sent_iff_supported (m : VeoModel) (resolution : option Resolution) :
  In m VEO_MODELS ->
  (effectiveResolution (model_id m) resolution <> None <->
     supportsResolution m = true) /\
  (forall r, effectiveResolution (model_id m) resolution = Some r ->
     In (Resolution_value r) (model_resolutions m)).
Proof.
  intros Hin. cbn in Hin.
  destruct Hin as [ <- | [ <- | [ <- | [ <- | [ <- | [] ] ] ] ] ]; cbn; split;
    try (split; [reflexivity|discriminate]);
    try (split; [congruence|discriminate]);
    try (intros r H; inversion H; subst r;
         destruct resolution as [[|]|]; cbn; auto);
    try discriminate.
Qed.

Lemma resolution_sent_iff_supported_witness :
  In (Resolution_value FULL_HD)
    (model_resolutions (nth 0 VEO_MODELS (mkVeoModel "" "" "" "" [] [] [] true))).
Proof.
  apply (resolution_sent_iff_supported
           (nth 0 VEO_MODELS (mkVeoModel "" "" "" "" [] [] [] true))
           (Some FULL_HD)).
  - left. reflexivity.
  - reflexivity.
Defined.

Lemma Qeq_bool_inject (q : Q) (a b : Z) :
  Qeq_bool q (inject_Z a) = true -> q == inject_Z b -> a = b.
Proof.
  intros Ha Hb. apply Qeq_bool_iff in Ha. rewrite Ha in Hb.
  unfold Qeq, inject_Z in Hb. cbn in Hb. lia.
Qed.

(** The durations the generation tools accept are exactly the durations
    [VEO_MODELS] lists for some model, and an accepted number is parsed to
    the integer it equals. *)
Theorem durations_accepted_iff_listed (path : string) (q : Q) :
  ((exists d, z_duration path (Some (JNum q)) = inr d) <->
   (exists m d, In m VEO_MODELS /\ In d (model_durations m) /\ q == inject_Z d)) /\
  (forall d, z_duration path (Some (JNum q)) = inr d -> q == inject_Z d).
Proof.
  assert (Hval : forall d, z_duration path (Some (JNum q)) = inr d ->
                   q == inject_Z d /\ (d = 4 \/ d = 5 \/ d = 6 \/ d = 8)).
  { intros d. unfold z_duration.
    destruct (Qeq_bool q (inject_Z 4)) eqn:H4;
      [intros H; inversion H; subst; split;
         [apply Qeq_bool_iff; exact H4|auto]|].
    destruct (Qeq_bool q (inject_Z 5)) eqn:H5;
      [intros H; inversion H; subst; split;
         [apply Qeq_bool_iff; exact H5|auto]|].
    destruct (Qeq_bool q (inject_Z 6)) eqn:H6;
      [intros H; inversion H; subst; split;
         [apply Qeq_bool_iff; exact H6|auto]|].
    destruct (Qeq_bool q (inject_Z 8)) eqn:H8;
      [intros H; inversion H; subst; split;
         [apply Qeq_bool_iff; exact H8|auto 6]|].
    discriminate. }
  split; [|intros d H; apply (Hval d H)].
  split.
  - intros [d Hd]. destruct (Hval d Hd) as [Hq [ -> | [ -> | [ -> | -> ] ] ]].
    + exists (nth 0 VEO_MODELS (mkVeoModel "" "" "" "" [] [] [] true)), 4.
      cbn. auto.
    + exists (nth 4 VEO_MODELS (mkVeoModel "" "" "" "" [] [] [] true)), 5.
      cbn. auto 10.
    + exists (nth 0 VEO_MODELS (mkVeoModel "" "" "" "" [] [] [] true)), 6.
      cbn. auto.
    + exists (nth 0 VEO_MODELS (mkVeoModel "" "" "" "" [] [] [] true)), 8.
      cbn. auto 6.
  - intros (m & d & Hm & Hd & Hq).
    assert (Hd' : d = 4 \/ d = 5 \/ d = 6 \/ d = 8).
    { cbn in Hm. destruct Hm as [ <- | [ <- | [ <- | [ <- | [ <- | [] ] ] ] ] ]; cbn in Hd; intuition. }
    unfold z_duration.
    destruct (Qeq_bool q (inject_Z 4)) eqn:H4; [eexists; reflexivity|].
    destruct (Qeq_bool q (inject_Z 5)) eqn:H5; [eexists; reflexivity|].
    destruct (Qeq_bool q (inject_Z 6)) eqn:H6; [eexists; reflexivity|].
    destruct (Qeq_bool q (inject_Z 8)) eqn:H8; [eexists; reflexivity|].
    exfalso.
    apply Qeq_bool_iff in Hq.
    destruct Hd' as [ -> | [ -> | [ -> | -> ] ] ]; congruence.
Qed.

Lemma durations_accepted_iff_listed_witness :
  exists d, z_duration "duration_seconds" (Some (JInt 5)) = inr d.
Proof.
  apply (durations_accepted_iff_listed "duration_seconds" (inject_Z 5)).
  exists (nth 4 VEO_MODELS (mkVeoModel "" "" "" "" [] [] [] true)), 5.
  split; [do 4 right; left; reflexivity|].
  split; [left; reflexivity|reflexivity].
Defined.
